(** * Storefront backend: product listing with first-run seeding, and
      server-side order pricing

    A shallow embedding of [main.py]: the handlers [list_products] and
    [create_order], the helper [serialize_doc], the seed catalogue
    [SEED_PRODUCTS] and the response models [ProductOut] and [OrderOut].

    Python floats are IEEE-754 binary64 numbers and are modelled by Rocq's
    primitive floats; Python integers are unbounded and are modelled by [Z].
    Documents are Python dicts keyed by strings and are modelled by finite
    maps.  The document store is threaded through the handlers as explicit
    state, and a raised exception is the [Raise] branch of [result]. *)

From Stdlib Require Import ZArith List Ascii String Floats Lia Bool.
From stdpp Require Import base option list gmap strings.
Import ListNotations.

Set Warnings "-inexact-float,-register-all".
Set Default Proof Using "Type".

Local Open Scope string_scope.
Local Open Scope Z_scope.

(** ** Exceptions and results *)

Inductive exn : Type :=
  | HTTPException (status_code : Z) (detail : string)
  | OverflowError
  | ValueError
  | TypeError
  | ValidationError.

Inductive result (A : Type) : Type :=
  | Ok (a : A)
  | Raise (e : exn).

Arguments Ok {A} a.
Arguments Raise {A} e.

#[global] Instance result_bind : MBind result :=
  λ A B (k : A → result B) (r : result A),
    match r with
    | Ok a => k a
    | Raise e => Raise e
    end.

Fixpoint mapM {A B : Type} (f : A → result B) (l : list A) : result (list B) :=
  match l with
  | [] => Ok []
  | a :: l' => b ← f a ; bs ← mapM f l' ; Ok (b :: bs)
  end.

Definition of_option {A : Type} (e : exn) (o : option A) : result A :=
  match o with
  | Some a => Ok a
  | None => Raise e
  end.

(** ** Python numbers *)

Module PyNum.

(** [float(n)] for an integer [n]: the nearest binary64 number, ties to
    even; [OverflowError] when that is beyond the largest finite float. *)
Definition float_of_int (z : Z) : result float :=
  match binary_normalize prec emax z 0 false with
  | S754_infinity _ => Raise OverflowError
  | r => Ok (SF2Prim r)
  end.

(** [x * n] with [x] a float and [n] an integer: the integer is converted
    first. *)
Definition mul_float_int (x : float) (n : Z) : result float :=
  y ← float_of_int n ; Ok (x * y)%float.

(** A number is an [int] or a [float]. *)
Inductive pynum : Type :=
  | PyInt (z : Z)
  | PyFloat (f : float).

(** [n + f] with [f] a float. *)
Definition add_float (n : pynum) (f : float) : result float :=
  match n with
  | PyInt z => x ← float_of_int z ; Ok (x + f)%float
  | PyFloat x => Ok (x + f)%float
  end.

(** [max(0.0, x)]: the first argument is kept unless the second compares
    strictly greater. *)
Definition max0 (x : float) : float :=
  if (0 <? x)%float then x else 0%float.

Definition is_finite (x : float) : bool :=
  negb (is_nan x || is_infinity x).

(** *** [sum] over floats, starting from the integer [0]

    The first addition is [0 + x], computed as [0.0 + x].  The remaining
    items are added left to right; from CPython 3.12 on a run of floats is
    added with Neumaier's compensation instead.  The interpreter's choice
    is a parameter of the model. *)
Inductive summation : Type :=
  | LeftToRight
  | Compensated.

Fixpoint sum_left (acc : float) (xs : list float) : float :=
  match xs with
  | [] => acc
  | x :: xs' => sum_left (acc + x)%float xs'
  end.

Fixpoint sum_neumaier (f c : float) (xs : list float) : float :=
  match xs with
  | [] =>
      if negb (c =? 0)%float && is_finite c then (f + c)%float else f
  | x :: xs' =>
      let t := (f + x)%float in
      let c' :=
        if (abs x <=? abs f)%float
        then (c + ((f - t) + x))%float
        else (c + ((x - t) + f))%float in
      sum_neumaier t c' xs'
  end.

Definition sum (algo : summation) (xs : list float) : pynum :=
  match xs with
  | [] => PyInt 0
  | x :: xs' =>
      PyFloat match algo with
              | LeftToRight => sum_left (0 + x)%float xs'
              | Compensated => sum_neumaier (0 + x)%float 0%float xs'
              end
  end.

(** *** [round(x, 2)]

    A finite float is rounded, on its exact value and ties to even, to a
    decimal with two fractional digits, and the result is the float
    nearest to that decimal.  Infinities and NaN round to themselves, and
    the sign of a zero result is that of [x]. *)
Definition round_half_even (num den : Z) : Z :=
  let q := num / den in
  let r := num mod den in
  match 2 * r ?= den with
  | Lt => q
  | Gt => q + 1
  | Eq => if Z.even q then q else q + 1
  end.

Definition float_round2 (x : float) : float :=
  match Prim2SF x with
  | S754_finite s m e =>
      if 0 <=? e then x
      else
        match round_half_even (Z.pos m * 100) (2 ^ (- e)) with
        | Z.pos p =>
            SF2Prim (SF64div (S754_finite s p 0) (S754_finite false 100 0))
        | _ => if s then (-0)%float else 0%float
        end
  | _ => x
  end.

(** [round(n, 2)]: an integer is returned unchanged. *)
Definition round2 (n : pynum) : pynum :=
  match n with
  | PyInt z => PyInt z
  | PyFloat f => PyFloat (float_round2 f)
  end.

End PyNum.

Export PyNum.

(** ** Values and documents *)

(** The values a document holds: Python's [None], [bool], [int], [float]
    and [str], an [ObjectId] of the store, lists and nested dicts. *)
Inductive value : Type :=
  | VNone
  | VBool (b : bool)
  | VInt (z : Z)
  | VFloat (f : float)
  | VStr (s : string)
  | VObjectId (n : N)
  | VList (l : list value)
  | VDict (kvs : list (string * value)).

(** A document is a dict with string keys. *)
Abbreviation doc := (gmap string value).

Definition value_of_num (n : pynum) : value :=
  match n with
  | PyInt z => VInt z
  | PyFloat f => VFloat f
  end.

Definition value_of_option {A : Type} (inj : A → value) (o : option A) : value :=
  match o with
  | Some a => inj a
  | None => VNone
  end.

(** ** Request and catalogue schemas *)

(** Modelled from the spec: [schemas.py] is not among the sources.  An order
    item carries a product reference, a price and an integer quantity; an
    order carries its items and an optional shipping charge. *)
Record OrderItem : Type := {
  item_product : string;
  item_price : float;
  item_quantity : Z
}.

(** Modelled from the spec: the [Order] schema of [schemas.py]. *)
Record Order : Type := {
  order_items : list OrderItem;
  order_shipping : option float
}.

(** Modelled from the spec: the dump of an item of [schemas.py], a dict of
    its three fields. *)
Definition OrderItem_dump (it : OrderItem) : value :=
  VDict [("product", VStr (item_product it));
         ("price", VFloat (item_price it));
         ("quantity", VInt (item_quantity it))].

(** Modelled from the spec: [order.model_dump()] for the [Order] of
    [schemas.py], a dict of its two fields. *)
Definition Order_dump (o : Order) : doc :=
  <["shipping" := value_of_option VFloat (order_shipping o)]>
    (<["items" := VList (map OrderItem_dump (order_items o))]> ∅).

(** Modelled from the spec: the [Product] schema of [schemas.py], with the
    fields the seed catalogue of [main.py] gives to each product. *)
Record ProductSchema : Type := {
  ps_title : string;
  ps_description : option string;
  ps_price : float;
  ps_category : string;
  ps_in_stock : bool;
  ps_image : option string;
  ps_rating : option float
}.

(** Modelled from the spec: the dump of a product of [schemas.py], which is
    what [create_document] stores when it is given a model instance. *)
Definition ProductSchema_dump (p : ProductSchema) : doc :=
  <["title" := VStr (ps_title p)]>
    (<["description" := value_of_option VStr (ps_description p)]>
      (<["price" := VFloat (ps_price p)]>
        (<["category" := VStr (ps_category p)]>
          (<["in_stock" := VBool (ps_in_stock p)]>
            (<["image" := value_of_option VStr (ps_image p)]>
              (<["rating" := value_of_option VFloat (ps_rating p)]> ∅)))))).

(** ** The document store *)

(** Modelled from the spec: [database.py] is not among the sources.  The
    store holds named collections of documents and offers count, insert and
    find; on insert it assigns the document a fresh identifier, kept under
    ["_id"].  A collection is listed in insertion order. *)
Record Store : Type := {
  collections : gmap string (list doc);
  next_id : N
}.

(** Modelled from the spec: the collection [db[name]] of [database.py];
    one that was never written to is empty. *)
Definition collection (st : Store) (name : string) : list doc :=
  default [] (collections st !! name).

(** Modelled from the spec: the count of [database.py]'s store handle,
    [db[name].count_documents({})]. *)
Definition count_documents (st : Store) (name : string) : Z :=
  Z.of_nat (length (collection st name)).

(** Modelled from the spec: the insert of [database.py]'s store; the
    document is appended under a fresh identifier, which is returned. *)
Definition insert_one (name : string) (d : doc) (st : Store) : N * Store :=
  let oid := next_id st in
  (oid,
   {| collections :=
        <[name := (collection st name ++ [<["_id" := VObjectId oid]> d])%list]>
          (collections st);
      next_id := N.succ oid |}).

(** Modelled from the spec: [get_documents] of [database.py] with an empty
    filter, a find that returns at most [limit] documents. *)
Definition get_documents (name : string) (limit : Z) (st : Store) : list doc :=
  take (Z.to_nat limit) (collection st name).

(** ** Response models *)
Record ProductOut : Type := {
  id : string;
  title : string;
  description : option string;
  price : float;
  category : string;
  in_stock : bool;
  image : option string;
  rating : option float
}.

Record OrderOut : Type := {
  order_id : string;
  total : float
}.

(** ** The Python runtime and pydantic

    What the handlers call without defining it: the summation algorithm of
    [sum], [str] of a value, [float] of a string, and pydantic's validators
    for fields of type [str], [float] and [bool]. *)
Record Runtime : Type := {
  sum_algo : summation;
  py_str : value → string;
  float_of_str : string → result float;
  validate_str : value → option string;
  validate_float : value → option float;
  validate_bool : value → option bool
}.

(** The validators accept a value that already has the field's type. *)
Record validators_accept (rt : Runtime) : Prop := {
  accept_str : ∀ s, validate_str rt (VStr s) = Some s;
  accept_float : ∀ f, validate_float rt (VFloat f) = Some f;
  accept_bool : ∀ b, validate_bool rt (VBool b) = Some b
}.

Section Handlers.

Context (rt : Runtime).

(** [float(v)] *)
Definition py_float (v : value) : result float :=
  match v with
  | VFloat f => Ok f
  | VInt z => float_of_int z
  | VBool b => Ok (if b then 1 else 0)%float
  | VStr s => float_of_str rt s
  | _ => Raise TypeError
  end.

(** Modelled from the spec: [create_document] of [database.py], which
    inserts the document and returns the assigned identifier as a string. *)
Definition create_document (name : string) (d : doc) (st : Store)
  : string * Store :=
  let '(oid, st') := insert_one name d st in
  (py_str rt (VObjectId oid), st').

(** *** [serialize_doc] *)
Definition serialize_doc (document : doc) : result doc :=
  let d := document in
  let d :=
    match d !! "_id" with
    | Some oid => <["id" := VStr (py_str rt oid)]> (delete "_id" d)
    | None => d
    end in
  match d !! "rating" with
  | None | Some VNone => Ok d
  | Some r => f ← py_float r ; Ok (<["rating" := VFloat f]> d)
  end.

(** A field with no default must be present and valid. *)
Definition required {A : Type} (v : value → option A) (o : option value)
  : result A :=
  of_option ValidationError (o ≫= v).

(** An [Optional] field defaulting to [None]. *)
Definition optional {A : Type} (v : value → option A) (o : option value)
  : result (option A) :=
  match o with
  | None | Some VNone => Ok None
  | Some x => of_option ValidationError (Some <$> v x)
  end.

(** [ProductOut] built from the keyword arguments [kw]: keys that are not
    fields are ignored. *)
Definition ProductOut_new (kw : doc) : result ProductOut :=
  i ← required (validate_str rt) (kw !! "id") ;
  t ← required (validate_str rt) (kw !! "title") ;
  d ← optional (validate_str rt) (kw !! "description") ;
  p ← required (validate_float rt) (kw !! "price") ;
  c ← required (validate_str rt) (kw !! "category") ;
  s ← required (validate_bool rt) (kw !! "in_stock") ;
  g ← optional (validate_str rt) (kw !! "image") ;
  r ← optional (validate_float rt) (kw !! "rating") ;
  Ok {| id := i; title := t; description := d; price := p; category := c;
        in_stock := s; image := g; rating := r |}.

(** *** [SEED_PRODUCTS] *)
Definition SEED_PRODUCTS : list ProductSchema :=
  [ {| ps_title := "AeroMesh Sneakers";
       ps_description :=
         Some "Breathable, lightweight trainers for all-day comfort";
       ps_price := 129.0;
       ps_category := "shoes";
       ps_in_stock := true;
       ps_image :=
         Some "https://images.unsplash.com/photo-1542291026-7eec264c27ff?q=80&w=1200&auto=format&fit=crop";
       ps_rating := Some 4.7%float |};
    {| ps_title := "Minimalist Backpack";
       ps_description :=
         Some "Slim, water-resistant pack with padded laptop sleeve";
       ps_price := 89.0;
       ps_category := "bags";
       ps_in_stock := true;
       ps_image :=
         Some "https://images.unsplash.com/photo-1517433670267-08bbd4be890f?q=80&w=1200&auto=format&fit=crop";
       ps_rating := Some 4.6%float |};
    {| ps_title := "Supima Tee";
       ps_description := Some "Ultra-soft premium cotton crew neck";
       ps_price := 39.0;
       ps_category := "apparel";
       ps_in_stock := true;
       ps_image :=
         Some "https://images.unsplash.com/photo-1512436991641-6745cdb1723f?q=80&w=1200&auto=format&fit=crop";
       ps_rating := Some 4.6%float |};
    {| ps_title := "Smartwatch Pro";
       ps_description := Some "Fitness + notifications with 7-day battery";
       ps_price := 199.0;
       ps_category := "wearables";
       ps_in_stock := true;
       ps_image :=
         Some "https://images.unsplash.com/photo-1524805444758-089113d48a6d?q=80&w=1200&auto=format&fit=crop";
       ps_rating := Some 4.5%float |} ].

(** The loop [for p in SEED_PRODUCTS: create_document("product", p)]. *)
Definition seed (st : Store) : Store :=
  fold_left
    (λ st p, (create_document "product" (ProductSchema_dump p) st).2)
    SEED_PRODUCTS st.

(** *** [list_products]

    [db] is the module's store handle, [None] when no connection was
    configured. *)
Definition list_products (db : option Store) (limit : Z)
  : result (list ProductOut) * option Store :=
  match db with
  | None => (Raise (HTTPException 500 "Database not configured"), db)
  | Some st =>
      let count := count_documents st "product" in
      let st := if count =? 0 then seed st else st in
      let docs := get_documents "product" limit st in
      (mapM (λ d, kw ← serialize_doc d ; ProductOut_new kw) docs, Some st)
  end.

(** *** [create_order] *)

(** The generator [item.price * item.quantity for item in order.items]. *)
Definition line_amounts (its : list OrderItem) : result (list float) :=
  mapM (λ it, mul_float_int (item_price it) (item_quantity it)) its.

(** [max(0.0, float(order.shipping))] when a shipping is given, else
    [0.0]; [float] of a float is that float. *)
Definition effective_shipping (s : option float) : float :=
  match s with
  | Some x => max0 x
  | None => 0%float
  end.

(** [sum(item.price * item.quantity for item in order.items)] *)
Definition subtotal_of (its : list OrderItem) : result pynum :=
  amounts ← line_amounts its ;
  Ok (PyNum.sum (sum_algo rt) amounts).

Definition create_order (db : option Store) (order : Order)
  : result OrderOut * option Store :=
  match db with
  | None => (Raise (HTTPException 500 "Database not configured"), db)
  | Some st =>
      let priced :=
        subtotal ← subtotal_of (order_items order) ;
        let shipping := effective_shipping (order_shipping order) in
        raw ← add_float subtotal shipping ;
        Ok (subtotal, shipping, float_round2 raw) in
      match priced with
      | Raise e => (Raise e, db)
      | Ok (subtotal, shipping, total) =>
          let order_doc := Order_dump order in
          let order_doc :=
            <["subtotal" := value_of_num (round2 subtotal)]> order_doc in
          let order_doc :=
            <["shipping" := VFloat (float_round2 shipping)]> order_doc in
          let order_doc := <["total" := VFloat total]> order_doc in
          let '(new_id, st') := create_document "order" order_doc st in
          (Ok {| order_id := new_id; total := total |}, Some st')
      end
  end.

(** The order document a call of [create_order] leaves in the store: the
    last one of the collection, when the call succeeds. *)
Definition persisted_order (st : Store) (order : Order) : option doc :=
  match create_order (Some st) order with
  | (Ok _, Some st') => last (collection st' "order")
  | _ => None
  end.

End Handlers.

(** ** A runtime and inputs to run the handlers on *)

Definition hex_digit (n : N) : Ascii.ascii :=
  nth (N.to_nat n) (list_ascii_of_string "0123456789abcdef") "0"%char.

Fixpoint hex_digits (k : nat) (n : N) (acc : string) : string :=
  match k with
  | O => acc
  | S k' => hex_digits k' (n / 16)%N (String (hex_digit (n mod 16)%N) acc)
  end.

(** An [ObjectId] prints as 24 hexadecimal digits. *)
Definition oid_hex (n : N) : string := hex_digits 24 n "".

(** A runtime for the examples: validators that accept exactly the values of
    the field's own type, and [str] on identifiers and strings.  [str] of
    other values and [float] of a string are not exercised by the examples;
    they are given a fixed answer here. *)
Definition example_runtime (algo : summation) : Runtime :=
  {| sum_algo := algo;
     py_str := λ v, match v with
                    | VObjectId n => oid_hex n
                    | VStr s => s
                    | _ => ""
                    end;
     float_of_str := λ _, Raise ValueError;
     validate_str := λ v, match v with VStr s => Some s | _ => None end;
     validate_float := λ v, match v with VFloat f => Some f | _ => None end;
     validate_bool := λ v, match v with VBool b => Some b | _ => None end |}.

Definition empty_store : Store := {| collections := ∅; next_id := 0 |}.

Definition one_item (p : float) (q : Z) : OrderItem :=
  {| item_product := "sku"; item_price := p; item_quantity := q |}.

(** ** Inputs of the examples *)

(** One item at 0.004 and a shipping of 0.004. *)
Definition small_order : Order :=
  {| order_items := [one_item 0.004 1]; order_shipping := Some 0.004%float |}.

(** One item at 10.0 and a shipping of 1.234. *)
Definition fractional_shipping_order : Order :=
  {| order_items := [one_item 10.0 1]; order_shipping := Some 1.234%float |}.

Definition empty_order : Order :=
  {| order_items := []; order_shipping := None |}.

Definition refund_order : Order :=
  {| order_items := [one_item (-5.0) 1]; order_shipping := None |}.

(** The document [create_order] builds from the order and its prices, before
    the store gives it an identifier. *)
Definition order_doc (order : Order) (subtotal : pynum) (shipping total : float)
  : doc :=
  <["total" := VFloat total]>
    (<["shipping" := VFloat (float_round2 shipping)]>
      (<["subtotal" := value_of_num (round2 subtotal)]> (Order_dump order))).

(** The documents stored for the example orders on the empty store. *)
Definition small_order_doc : doc :=
  <["_id" := VObjectId 0]> (order_doc small_order (PyFloat 0.004) 0.004 0.01).

Definition fractional_shipping_doc : doc :=
  <["_id" := VObjectId 0]>
    (order_doc fractional_shipping_order (PyFloat 10) 1.234 11.23).

Definition clamped_order : Order :=
  {| order_items := [one_item 10.0 1]; order_shipping := Some (-10)%float |}.

Definition clamped_order_doc : doc :=
  <["_id" := VObjectId 0]> (order_doc clamped_order (PyFloat 10) 0 10).

(** The invariant of the stored totals as the specification words it: the
    stored total is the stored subtotal plus the stored shipping, rounded. *)
Definition stored_total_invariant (d : doc) : Prop :=
  ∃ (sub : pynum) (sh tot raw : float),
    d !! "subtotal" = Some (value_of_num sub) ∧
    d !! "shipping" = Some (VFloat sh) ∧
    d !! "total" = Some (VFloat tot) ∧
    add_float sub sh = Ok raw ∧
    tot = float_round2 raw.

(** A server error is an HTTP error with a status from 500 to 599. *)
Definition is_server_error (e : exn) : Prop :=
  match e with
  | HTTPException status_code _ => 500 ≤ status_code < 600
  | _ => False
  end.

(** The [k]-th document of a seeding that starts at the identifier [oid]. *)
Definition seeded_doc (oid : N) (k : nat) (p : ProductSchema) : doc :=
  <["_id" := VObjectId (oid + N.of_nat k)]> (ProductSchema_dump p).

(** The store [list_products] reads from: seeded when it counted no product. *)
Definition after_seeding (rt : Runtime) (st : Store) : Store :=
  if count_documents st "product" =? 0 then seed rt st else st.

(** A document that [list_products] can turn into a [ProductOut]. *)
Definition listable (rt : Runtime) (d : doc) : Prop :=
  ∃ p, (kw ← serialize_doc rt d ; ProductOut_new rt kw) = Ok p.

(** A seed product as it is listed, under the identifier [i]. *)
Definition ProductOut_of_schema (i : string) (p : ProductSchema) : ProductOut :=
  {| id := i;
     title := ps_title p;
     description := ps_description p;
     price := ps_price p;
     category := ps_category p;
     in_stock := ps_in_stock p;
     image := ps_image p;
     rating := ps_rating p |}.

(** The seed catalogue as the first listing of an empty store returns it. *)
Definition seed_listing : list ProductOut :=
  imap (λ k p, ProductOut_of_schema (oid_hex (N.of_nat k)) p) SEED_PRODUCTS.

(** A listed product [p] is the normalised form of the stored document [d]:
    [serialize_doc] gives a dict without ["_id"], whose ["id"] is the string
    of the stored identifier and whose rating, when one is stored and is not
    [None], is its [float]; the product is built from that dict. *)
Definition normalized (rt : Runtime) (d : doc) (p : ProductOut) : Prop :=
  ∃ kw,
    serialize_doc rt d = Ok kw ∧
    ProductOut_new rt kw = Ok p ∧
    kw !! "_id" = None ∧
    (∀ oid, d !! "_id" = Some oid →
       kw !! "id" = Some (VStr (py_str rt oid)) ∧ id p = py_str rt oid) ∧
    (∀ r, d !! "rating" = Some r → r ≠ VNone →
       ∃ f, py_float rt r = Ok f ∧
            kw !! "rating" = Some (VFloat f) ∧
            rating p = Some f).

(** Three items, and the same three in another order. *)
Definition items_a : list OrderItem :=
  [one_item 31.999999999999996 1; one_item 192 1;
   one_item 504403158265495552 1].

Definition items_b : list OrderItem :=
  [one_item 504403158265495552 1; one_item 31.999999999999996 1;
   one_item 192 1].

(** Two items, for the order-independent case. *)
Definition items_c : list OrderItem := [one_item 0.1 3; one_item 19.99 2].

(** ** Binary64 at the level of its specification

    The compensated sum of two floats [a] and [b], on the specification
    floats that the primitive operations are axiomatised against. *)
Definition sf_zero : spec_float := S754_zero false.

Definition sf_is_finite (x : spec_float) : bool :=
  negb (negb (SFeqb x x) || SFeqb (SFabs x) (S754_infinity false)).

Definition sf_neumaier2 (a b : spec_float) : spec_float :=
  let f := SF64add sf_zero a in
  let t := SF64add f b in
  let c :=
    if SFleb (SFabs b) (SFabs f)
    then SF64add sf_zero (SF64add (SF64sub f t) b)
    else SF64add sf_zero (SF64add (SF64sub b t) f) in
  if negb (SFeqb c sf_zero) && sf_is_finite c then SF64add t c else t.

(** ** The diagnostic endpoint *)

(** A Python [str] is kept as its UTF-8 bytes.  A byte continues a character
    when its two top bits are [10]. *)
Definition is_continuation (c : ascii) : bool :=
  match c with
  | Ascii _ _ _ _ _ _ b6 b7 => b7 && negb b6
  end.

(** The number of characters of a string. *)
Fixpoint py_len (s : string) : nat :=
  match s with
  | EmptyString => O
  | String c s' => if is_continuation c then py_len s' else S (py_len s')
  end.

(** The slice [s[:n]]: the first [n] characters, or all of them. *)
Fixpoint py_prefix (n : nat) (s : string) : string :=
  match s with
  | EmptyString => EmptyString
  | String c s' =>
      if is_continuation c then String c (py_prefix n s')
      else
        match n with
        | O => EmptyString
        | S n' => String c (py_prefix n' s')
        end
  end.

(** What a call on the store handle does: it returns, or raises an exception
    whose [str] is [message]. *)
Inductive outcome (A : Type) : Type :=
  | Returns (a : A)
  | Raises (message : string).

Arguments Returns {A} a.
Arguments Raises {A} message.

(** The store handle as [test_database] uses it: the attribute [name], absent
    when looking it up raises [AttributeError], and the method
    [list_collection_names]. *)
Record Database : Type := {
  db_name : option (outcome value);
  list_collection_names : outcome (list string)
}.

(** The truth value of what [os.getenv] returns: [None] and the empty string
    are false. *)
Definition truthy (o : option string) : bool :=
  match o with
  | Some (String _ _) => true
  | _ => false
  end.

(** [test_database]; [getenv] is [os.getenv] on the process environment. *)
Definition test_database (db : option Database)
    (getenv : string → option string) : doc :=
  let response : doc :=
    <["backend" := VStr "✅ Running"]>
      (<["database" := VStr "❌ Not Available"]>
        (<["database_url" := VNone]>
          (<["database_name" := VNone]>
            (<["connection_status" := VStr "Not Connected"]>
              (<["collections" := VList []]> ∅))))) in
  let response :=
    match db with
    | Some h =>
        let response := <["database" := VStr "✅ Available"]> response in
        let response := <["database_url" := VStr "✅ Configured"]> response in
        match db_name h with
        | Some (Raises message) =>
            <["database" := VStr ("❌ Error: " ++ py_prefix 50 message)]>
              response
        | name =>
            let response :=
              <["database_name" := match name with
                                   | Some (Returns v) => v
                                   | _ => VStr "✅ Connected"
                                   end]> response in
            let response :=
              <["connection_status" := VStr "Connected"]> response in
            match list_collection_names h with
            | Returns collections =>
                let response :=
                  <["collections" := VList (map VStr (take 10 collections))]>
                    response in
                <["database" := VStr "✅ Connected & Working"]> response
            | Raises message =>
                <["database" :=
                    VStr ("⚠️  Connected but Error: " ++ py_prefix 50 message)]>
                  response
            end
        end
    | None => <["database" := VStr "⚠️  Available but not initialized"]> response
    end in
  let response :=
    <["database_url" := VStr (if truthy (getenv "DATABASE_URL")
                              then "✅ Set" else "❌ Not Set")]> response in
  <["database_name" := VStr (if truthy (getenv "DATABASE_NAME")
                             then "✅ Set" else "❌ Not Set")]> response.

(** The names [test_database] reports for a handle. *)
Definition reported_collections (db : option Database) : list string :=
  match db with
  | Some {| db_name := Some (Raises _) |} => []
  | Some {| list_collection_names := Returns collections |} =>
      take 10 collections
  | _ => []
  end.

(** The handle is connected when there is one and reading its name does not
    raise. *)
Definition connected (db : option Database) : bool :=
  match db with
  | Some {| db_name := Some (Raises _) |} => false
  | Some _ => true
  | None => false
  end.

(** A stored document with an integer rating, and its normal form. *)
Definition rated_doc : doc :=
  <["_id" := VObjectId 7]>
    (<["title" := VStr "Tee"]> (<["rating" := VInt 4]> ∅)).

Definition rated_doc_normal : doc :=
  <["id" := VStr (oid_hex 7)]>
    (<["title" := VStr "Tee"]> (<["rating" := VFloat 4]> ∅)).

(** The compensation after the first two items [a] and [b] of a compensated
    sum, on the specification floats. *)
Definition sf_compensation (a b : spec_float) : spec_float :=
  let f := SF64add sf_zero a in
  let t := SF64add f b in
  if SFleb (SFabs b) (SFabs f)
  then SF64add sf_zero (SF64add (SF64sub f t) b)
  else SF64add sf_zero (SF64add (SF64sub b t) f).

(** The same compensation on floats, as [sum_neumaier] computes it. *)
Definition compensation (a b : float) : float :=
  let f := (0 + a)%float in
  let t := (f + b)%float in
  if (abs b <=? abs f)%float
  then (0 + ((f - t) + b))%float
  else (0 + ((b - t) + f))%float.

(** A product to list. *)
Definition smartwatch : ProductSchema :=
  {| ps_title := "Smartwatch Pro";
     ps_description := None;
     ps_price := 199.0;
     ps_category := "wearables";
     ps_in_stock := true;
     ps_image := None;
     ps_rating := Some 4.5%float |}.

(** A handle whose listing fails. *)
Definition down_handle : Database :=
  {| db_name := Some (Returns (VStr "shop"));
     list_collection_names := Raises "connection refused" |}.

(** ** Tactics *)

(** An equation between closed terms, settled by evaluating both sides. *)
Ltac by_evaluation :=
  lazymatch goal with
  | |- ?a = ?b => exact (@eq_refl _ b <: a = b)
  end.

(** Two floats with different representations are different. *)
Ltac float_neq :=
  let H := fresh in
  intros H; apply (f_equal Prim2SF) in H; vm_compute in H; discriminate H.

(** ** The store *)

Lemma collection_insert_one (name : string) (d : doc) (st : Store) :
  collection (insert_one name d st).2 name
  = (collection st name ++ [<["_id" := VObjectId (next_id st)]> d])%list.
Proof.
  unfold collection at 1. cbn. by rewrite lookup_insert_eq.
Qed.

Lemma collection_insert_one_ne (name name' : string) (d : doc) (st : Store) :
  name ≠ name' →
  collection (insert_one name d st).2 name' = collection st name'.
Proof.
  intros Hne. unfold collection at 1. cbn. by rewrite lookup_insert_ne.
Qed.

Lemma next_id_insert_one (name : string) (d : doc) (st : Store) :
  next_id (insert_one name d st).2 = N.succ (next_id st).
Proof. reflexivity. Qed.

(** ** Pricing *)

Lemma float_of_int_0 : float_of_int 0 = Ok 0%float.
Proof. reflexivity. Qed.

(** Adding the shipping to a subtotal that [sum] produced never fails: the
    only integer [sum] returns is [0]. *)
Lemma add_float_sum (algo : summation) (amounts : list float) (sh : float) :
  ∃ raw, add_float (PyNum.sum algo amounts) sh = Ok raw.
Proof.
  destruct amounts as [|x xs].
  - by exists (0 + sh)%float.
  - by eexists.
Qed.

Lemma add_float_subtotal (rt : Runtime) (its : list OrderItem) (sub : pynum)
    (sh : float) :
  subtotal_of rt its = Ok sub → ∃ raw, add_float sub sh = Ok raw.
Proof.
  unfold subtotal_of. destruct (line_amounts its) as [amounts|e]; cbn; [|done].
  intros [= <-]. apply add_float_sum.
Qed.

(** What a call of [create_order] on a configured store does, in full. *)
Lemma create_order_configured (rt : Runtime) (st : Store) (order : Order) :
  match subtotal_of rt (order_items order) with
  | Ok sub =>
      let sh := effective_shipping (order_shipping order) in
      ∃ raw, add_float sub sh = Ok raw ∧
        create_order rt (Some st) order
        = (Ok {| order_id := py_str rt (VObjectId (next_id st));
                 total := float_round2 raw |},
           Some (insert_one "order"
                   (order_doc order sub sh (float_round2 raw)) st).2)
  | Raise e => create_order rt (Some st) order = (Raise e, Some st)
  end.
Proof.
  unfold create_order.
  destruct (subtotal_of rt (order_items order)) as [sub|e] eqn:Hsub; cbn; [|done].
  destruct (add_float_subtotal rt _ sub
              (effective_shipping (order_shipping order)) Hsub) as [raw Hraw].
  exists raw. split; [done|]. by rewrite Hraw.
Qed.

Lemma persisted_order_inv (rt : Runtime) (st : Store) (order : Order) (d : doc) :
  persisted_order rt st order = Some d →
  ∃ sub raw,
    subtotal_of rt (order_items order) = Ok sub ∧
    add_float sub (effective_shipping (order_shipping order)) = Ok raw ∧
    d = <["_id" := VObjectId (next_id st)]>
          (order_doc order sub (effective_shipping (order_shipping order))
             (float_round2 raw)).
Proof.
  unfold persisted_order.
  pose proof (create_order_configured rt st order) as Hco.
  destruct (subtotal_of rt (order_items order)) as [sub|e].
  - destruct Hco as (raw & Hraw & ->). rewrite collection_insert_one, last_snoc.
    intros [= <-]. by exists sub, raw.
  - by rewrite Hco.
Qed.

Lemma persisted_order_intro (rt : Runtime) (st : Store) (order : Order)
    (sub : pynum) :
  subtotal_of rt (order_items order) = Ok sub →
  is_Some (persisted_order rt st order).
Proof.
  intros Hsub. unfold persisted_order.
  pose proof (create_order_configured rt st order) as Hco.
  rewrite Hsub in Hco. destruct Hco as (raw & _ & ->).
  rewrite collection_insert_one, last_snoc. by eexists.
Qed.

Section StoredFields.

Context (order : Order) (sub : pynum) (sh tot : float) (oid : value).

Lemma stored_total :
  (<["_id" := oid]> (order_doc order sub sh tot)) !! "total"
  = Some (VFloat tot).
Proof. unfold order_doc. by simplify_map_eq. Qed.

Lemma stored_shipping :
  (<["_id" := oid]> (order_doc order sub sh tot)) !! "shipping"
  = Some (VFloat (float_round2 sh)).
Proof. unfold order_doc. by simplify_map_eq. Qed.

Lemma stored_subtotal :
  (<["_id" := oid]> (order_doc order sub sh tot)) !! "subtotal"
  = Some (value_of_num (round2 sub)).
Proof. unfold order_doc. by simplify_map_eq. Qed.

Lemma stored_id :
  (<["_id" := oid]> (order_doc order sub sh tot)) !! "_id" = Some oid.
Proof. by simplify_map_eq. Qed.

End StoredFields.


(** C2, as stated, fails: for one item at 0.004 and a shipping of 0.004 the
    stored total is 0.01 while the stored subtotal and shipping are both
    0.0, whatever the summation algorithm. *)
Lemma stored_total_invariant_fails :
  persisted_order (example_runtime LeftToRight) empty_store small_order
  = Some small_order_doc ∧
  persisted_order (example_runtime Compensated) empty_store small_order
  = Some small_order_doc ∧
  ¬ stored_total_invariant small_order_doc.
Proof.
  split; [by_evaluation|]. split; [by_evaluation|].
  unfold stored_total_invariant, small_order_doc.
  rewrite stored_total, stored_shipping, stored_subtotal.
  intros (sub & sh & tot & raw & Hsub & Hsh & Htot & Hraw & Hround).
  destruct sub as [z|f]; cbn in Hsub; [discriminate Hsub|].
  injection Hsub as <-. injection Hsh as <-. injection Htot as <-.
  injection Hraw as <-. revert Hround. float_neq.
Qed.

(** C2, amended.  In every order that [create_order] stores, the total is
    the unrounded subtotal plus the unrounded effective shipping, rounded
    to two decimals; the stored subtotal is the sum of price times quantity
    rounded to two decimals, and the stored shipping is the effective
    shipping rounded to two decimals. *)
Theorem stored_order_fields (rt : Runtime) (st : Store) (order : Order)
    (d : doc) :
  persisted_order rt st order = Some d →
  ∃ amounts raw,
    line_amounts (order_items order) = Ok amounts ∧
    let subtotal := PyNum.sum (sum_algo rt) amounts in
    let shipping := effective_shipping (order_shipping order) in
    add_float subtotal shipping = Ok raw ∧
    d !! "total" = Some (VFloat (float_round2 raw)) ∧
    d !! "subtotal" = Some (value_of_num (round2 subtotal)) ∧
    d !! "shipping" = Some (VFloat (float_round2 shipping)).
Proof.
  intros (sub & raw & Hsub & Hraw & ->)%persisted_order_inv.
  unfold subtotal_of in Hsub.
  destruct (line_amounts (order_items order)) as [amounts|e]; [|done].
  injection Hsub as <-. exists amounts, raw. cbn.
  by rewrite stored_total, stored_subtotal, stored_shipping.
Qed.

Lemma stored_order_fields_witness :
  small_order_doc !! "total" = Some (VFloat 0.01) ∧
  small_order_doc !! "subtotal" = Some (VFloat 0) ∧
  small_order_doc !! "shipping" = Some (VFloat 0).
Proof.
  assert (persisted_order (example_runtime LeftToRight) empty_store small_order
          = Some small_order_doc) as Hd by by_evaluation.
  destruct (stored_order_fields _ _ _ _ Hd)
    as (amounts & raw & Ham & Hraw & Ht & Hs & Hsh).
  injection Ham as <-. injection Hraw as <-.
  split; [exact Ht | split; [exact Hs | exact Hsh]].
Defined.

(** ** Shipping *)

Lemma negative_not_positive (s : float) :
  (s <? 0)%float = true → (0 <? s)%float = false.
Proof.
  rewrite !ltb_spec. change (Prim2SF 0) with (S754_zero false).
  by destruct (Prim2SF s) as [[]|[]| |[] m e].
Qed.

Lemma max0_negative (s : float) : (s <? 0)%float = true → max0 s = 0%float.
Proof. intros Hs. unfold max0. by rewrite negative_not_positive. Qed.

Lemma float_round2_0 : float_round2 0 = 0%float.
Proof. reflexivity. Qed.

(** C3, as stated, fails: a shipping of 1.234 is stored as 1.23, which is not
    [max(0, 1.234)]. *)
Lemma stored_shipping_is_rounded :
  persisted_order (example_runtime LeftToRight) empty_store
    fractional_shipping_order = Some fractional_shipping_doc ∧
  fractional_shipping_doc !! "shipping" = Some (VFloat 1.23) ∧
  fractional_shipping_doc !! "shipping" ≠ Some (VFloat (max0 1.234)).
Proof.
  split; [by_evaluation|].
  unfold fractional_shipping_doc. rewrite stored_shipping.
  split; [reflexivity|]. intros H.
  apply (f_equal (λ o, match o with
                       | Some (VFloat f) => Prim2SF f
                       | _ => S754_nan
                       end)) in H.
  vm_compute in H. discriminate H.
Qed.

(** C3, amended.  For every order that [create_order] stores, the effective
    shipping is [max(0, s)] for a supplied [s] and 0 when none is supplied;
    the total is computed with it, and it is stored rounded to two decimals.
    A negative [s] gives an effective and a stored shipping of 0, and no
    shipping value makes the call fail. *)
Theorem shipping_clamped (rt : Runtime) (st : Store) (order : Order) (d : doc) :
  persisted_order rt st order = Some d →
  let shipping := effective_shipping (order_shipping order) in
  shipping = match order_shipping order with
             | Some s => if (0 <? s)%float then s else 0%float
             | None => 0%float
             end ∧
  (∃ sub raw,
     subtotal_of rt (order_items order) = Ok sub ∧
     add_float sub shipping = Ok raw ∧
     d !! "total" = Some (VFloat (float_round2 raw))) ∧
  d !! "shipping" = Some (VFloat (float_round2 shipping)) ∧
  (∀ s, order_shipping order = Some s → (s <? 0)%float = true →
        shipping = 0%float ∧ d !! "shipping" = Some (VFloat 0)) ∧
  (order_shipping order = None →
     shipping = 0%float ∧ d !! "shipping" = Some (VFloat 0)) ∧
  (∀ s', is_Some (persisted_order rt st
                    {| order_items := order_items order;
                       order_shipping := s' |})).
Proof.
  intros (sub & raw & Hsub & Hraw & ->)%persisted_order_inv. cbn zeta.
  rewrite stored_total, stored_shipping.
  split; [by destruct (order_shipping order)|].
  split; [by exists sub, raw|]. split; [done|].
  split; [|split].
  - intros s -> Hneg. cbn [effective_shipping].
    by rewrite max0_negative, float_round2_0.
  - intros ->. cbn [effective_shipping]. by rewrite float_round2_0.
  - intros s'. by eapply persisted_order_intro.
Qed.

Lemma shipping_clamped_witness :
  clamped_order_doc !! "shipping" = Some (VFloat 0) ∧
  clamped_order_doc !! "total" = Some (VFloat 10).
Proof.
  assert (persisted_order (example_runtime LeftToRight) empty_store
            clamped_order = Some clamped_order_doc) as Hd
    by by_evaluation.
  destruct (shipping_clamped _ _ _ _ Hd)
    as (_ & (sub & raw & Hsub & Hraw & Ht) & _ & Hneg & _).
  destruct (Hneg _ eq_refl eq_refl) as [_ Hsh].
  injection Hsub as <-. injection Hraw as <-.
  split; [exact Hsh | exact Ht].
Defined.

(** ** The unconfigured store *)

(** C7. When no store is configured, [list_products] and [create_order] both
    raise an HTTP error with status 500, a server error, and there is no
    store afterwards either: nothing was written. *)
Theorem unconfigured_store (rt : Runtime) (limit : Z) (order : Order) :
  ∃ e,
    e = HTTPException 500 "Database not configured" ∧
    is_server_error e ∧
    list_products rt None limit = (Raise e, None) ∧
    create_order rt None order = (Raise e, None).
Proof.
  eexists. split; [reflexivity|]. split; [cbn; lia|]. by split.
Qed.

(** ** Particular orders *)

(** C9. An order with no items and no shipping succeeds on a configured
    store: the total is 0.0, one document is added to the orders, and the
    identifier returned is the string of the identifier the store gave to
    that document. *)
Theorem empty_order_total (rt : Runtime) (st : Store) :
  ∃ st' d,
    create_order rt (Some st) empty_order
    = (Ok {| order_id := py_str rt (VObjectId (next_id st)); total := 0 |},
       Some st') ∧
    collection st' "order" = (collection st "order" ++ [d])%list ∧
    d !! "_id" = Some (VObjectId (next_id st)) ∧
    d !! "total" = Some (VFloat 0).
Proof.
  pose proof (create_order_configured rt st empty_order) as (raw & Hraw & Hco).
  injection Hraw as <-. do 2 eexists. split; [exact Hco|].
  rewrite collection_insert_one. split; [reflexivity|].
  by rewrite stored_id, stored_total.
Qed.


(** ** Listing *)

Lemma mapM_Forall2 {A B : Type} (f : A → result B) (l : list A) (l' : list B) :
  mapM f l = Ok l' → Forall2 (λ a b, f a = Ok b) l l'.
Proof.
  revert l'. induction l as [|a l IH]; intros l'; cbn.
  - intros [= <-]. constructor.
  - destruct (f a) as [b|e] eqn:Hfa; cbn; [|done].
    destruct (mapM f l) as [bs|e]; cbn; [|done].
    intros [= <-]. constructor; auto.
Qed.

Lemma mapM_Forall {A B : Type} (f : A → result B) (l : list A) :
  Forall (λ a, ∃ b, f a = Ok b) l → ∃ l', mapM f l = Ok l'.
Proof.
  induction 1 as [|a l [b Hb] _ [bs Hbs]]; cbn.
  - by eexists.
  - rewrite Hb, Hbs. by eexists.
Qed.

Lemma mapM_length {A B : Type} (f : A → result B) (l : list A) (l' : list B) :
  mapM f l = Ok l' → length l' = length l.
Proof. intros H%mapM_Forall2. symmetry. by eapply Forall2_length. Qed.

Lemma get_documents_length (name : string) (limit : Z) (st : Store) :
  0 ≤ limit →
  Z.of_nat (length (get_documents name limit st))
  = Z.min limit (count_documents st name).
Proof.
  intros Hlim. unfold get_documents, count_documents.
  rewrite length_take. lia.
Qed.

Lemma create_document_store (rt : Runtime) (name : string) (d : doc)
    (st : Store) :
  (create_document rt name d st).2 = (insert_one name d st).2.
Proof. reflexivity. Qed.

(** The seeding loop, for any list of products. *)
Lemma seeding_loop (rt : Runtime) (ps : list ProductSchema) (st : Store) :
  let st' :=
    fold_left
      (λ st p, (create_document rt "product" (ProductSchema_dump p) st).2)
      ps st in
  collection st' "product"
  = (collection st "product" ++ imap (seeded_doc (next_id st)) ps)%list ∧
  next_id st' = (next_id st + N.of_nat (length ps))%N.
Proof.
  revert st. induction ps as [|p ps IH]; intros st; cbn [fold_left].
  - cbn. split; [by rewrite app_nil_r | lia].
  - destruct (IH (create_document rt "product" (ProductSchema_dump p) st).2)
      as [Hc Hn].
    cbn zeta. rewrite Hc, Hn, !create_document_store.
    rewrite collection_insert_one, next_id_insert_one, <- app_assoc.
    split; [|cbn [length]; lia].
    f_equal. cbn [imap app]. f_equal.
    + unfold seeded_doc. by rewrite N.add_0_r.
    + apply imap_ext. intros k q _. unfold seeded_doc. cbn [compose].
      do 2 f_equal. lia.
Qed.

Lemma seed_products (rt : Runtime) (st : Store) :
  collection (seed rt st) "product"
  = (collection st "product" ++ imap (seeded_doc (next_id st)) SEED_PRODUCTS)%list.
Proof. apply (seeding_loop rt SEED_PRODUCTS st). Qed.

Lemma seed_count (rt : Runtime) (st : Store) :
  count_documents (seed rt st) "product" = count_documents st "product" + 4.
Proof.
  unfold count_documents. rewrite seed_products, length_app, length_imap.
  cbn. lia.
Qed.

Lemma list_products_configured (rt : Runtime) (st : Store) (limit : Z) :
  list_products rt (Some st) limit
  = (mapM (λ d, kw ← serialize_doc rt d ; ProductOut_new rt kw)
       (get_documents "product" limit (after_seeding rt st)),
     Some (after_seeding rt st)).
Proof. reflexivity. Qed.

Lemma after_seeding_nonempty (rt : Runtime) (st : Store) :
  (count_documents (after_seeding rt st) "product" =? 0) = false.
Proof.
  unfold after_seeding.
  destruct (count_documents st "product" =? 0) eqn:Hc; [|done].
  rewrite seed_count. unfold count_documents in *. lia.
Qed.

Lemma after_seeding_idempotent (rt : Runtime) (st : Store) :
  after_seeding rt (after_seeding rt st) = after_seeding rt st.
Proof.
  unfold after_seeding at 1. by rewrite after_seeding_nonempty.
Qed.

(** C4. [list_products] seeds exactly when the product collection counts
    zero documents: the store it leaves is the seeded one in that case, with
    the seed catalogue appended once, and the unchanged one otherwise, also
    when it holds only some products.  A second call in sequence changes
    nothing and lists what the first one listed. *)
Theorem seeding_only_when_empty (rt : Runtime) (st : Store) (limit limit' : Z) :
  let first := list_products rt (Some st) limit in
  first.2 = Some (if count_documents st "product" =? 0 then seed rt st else st) ∧
  collection (seed rt st) "product"
  = (collection st "product" ++ imap (seeded_doc (next_id st)) SEED_PRODUCTS)%list ∧
  length SEED_PRODUCTS = 4%nat ∧
  (list_products rt first.2 limit').2 = first.2 ∧
  list_products rt first.2 limit = first.
Proof.
  cbn zeta. rewrite !list_products_configured. cbn [fst snd].
  split; [done|]. split; [apply seed_products|]. split; [done|].
  rewrite !list_products_configured, after_seeding_idempotent. by cbn.
Qed.

(** What [serialize_doc] does to the identifier and to the rating. *)
Lemma serialize_doc_spec (rt : Runtime) (d kw : doc) :
  serialize_doc rt d = Ok kw →
  kw !! "_id" = None ∧
  (∀ oid, d !! "_id" = Some oid → kw !! "id" = Some (VStr (py_str rt oid))) ∧
  (∀ r, d !! "rating" = Some r → r ≠ VNone →
        ∃ f, py_float rt r = Ok f ∧ kw !! "rating" = Some (VFloat f)) ∧
  (d !! "rating" = None → kw !! "rating" = None) ∧
  (d !! "rating" = Some VNone → kw !! "rating" = Some VNone).
Proof.
  unfold serialize_doc.
  set (d1 := match d !! "_id" with
             | Some oid => <["id" := VStr (py_str rt oid)]> (delete "_id" d)
             | None => d
             end).
  assert (d1 !! "_id" = None) as Hid.
  { subst d1. destruct (d !! "_id") eqn:E; by simplify_map_eq. }
  assert (d1 !! "rating" = d !! "rating") as Hr.
  { subst d1. destruct (d !! "_id"); by simplify_map_eq. }
  assert (∀ oid, d !! "_id" = Some oid →
                 d1 !! "id" = Some (VStr (py_str rt oid))) as Hoid.
  { intros oid E. subst d1. rewrite E. by simplify_map_eq. }
  clearbody d1. rewrite Hr.
  destruct (d !! "rating") as [r|] eqn:Hrating.
  - assert (r ≠ VNone →
            (f ← py_float rt r ; Ok (<["rating" := VFloat f]> d1)) = Ok kw →
            kw !! "_id" = None ∧
            (∀ oid, d !! "_id" = Some oid →
                    kw !! "id" = Some (VStr (py_str rt oid))) ∧
            (∀ r', Some r = Some r' → r' ≠ VNone →
                   ∃ f, py_float rt r' = Ok f ∧
                        kw !! "rating" = Some (VFloat f)) ∧
            (Some r = None → kw !! "rating" = None) ∧
            (Some r = Some VNone → kw !! "rating" = Some VNone)) as Hgen.
    { intros Hne. destruct (py_float rt r) as [f|e] eqn:Hf; cbn; [|done].
      intros [= <-]. split; [by simplify_map_eq|].
      split; [intros oid E; rewrite lookup_insert_ne by done; auto|].
      split; [|split; [done|by intros [= ->]]].
      intros r' [= <-] _. exists f. by simplify_map_eq. }
    destruct r; try (apply Hgen; discriminate).
    intros [= <-]. split; [done|]. split; [done|].
    split; [by intros r' [= <-]|]. split; [done|]. by rewrite Hr.
  - intros [= <-]. split; [done|]. split; [done|].
    split; [done|]. split; [by rewrite Hr|done].
Qed.

Lemma optional_str (rt : Runtime) (o : option string) :
  validators_accept rt →
  optional (validate_str rt) (Some (value_of_option VStr o)) = Ok o.
Proof. intros [Hs _ _]. destruct o; cbn; [|done]. by rewrite Hs. Qed.

Lemma optional_float (rt : Runtime) (o : option float) :
  validators_accept rt →
  optional (validate_float rt) (Some (value_of_option VFloat o)) = Ok o.
Proof. intros [_ Hf _]. destruct o; cbn; [|done]. by rewrite Hf. Qed.

Lemma required_str (rt : Runtime) (s : string) :
  validators_accept rt → required (validate_str rt) (Some (VStr s)) = Ok s.
Proof. intros [Hs _ _]. unfold required. cbn. by rewrite Hs. Qed.

Lemma required_float (rt : Runtime) (f : float) :
  validators_accept rt → required (validate_float rt) (Some (VFloat f)) = Ok f.
Proof. intros [_ Hf _]. unfold required. cbn. by rewrite Hf. Qed.

Lemma required_bool (rt : Runtime) (b : bool) :
  validators_accept rt → required (validate_bool rt) (Some (VBool b)) = Ok b.
Proof. intros [_ _ Hb]. unfold required. cbn. by rewrite Hb. Qed.

(** A stored seed product is listed with its own fields. *)
Lemma ProductSchema_listed (rt : Runtime) (oid : value) (p : ProductSchema) :
  validators_accept rt →
  (kw ← serialize_doc rt (<["_id" := oid]> (ProductSchema_dump p)) ;
   ProductOut_new rt kw)
  = Ok (ProductOut_of_schema (py_str rt oid) p).
Proof.
  intros Hacc. pose proof Hacc as [Hs Hf Hb].
  unfold serialize_doc. rewrite lookup_insert_eq, delete_insert_eq.
  set (m := <["id" := VStr (py_str rt oid)]> _).
  assert (m !! "rating" = Some (value_of_option VFloat (ps_rating p))) as Hr
    by (subst m; unfold ProductSchema_dump; by simplify_map_eq).
  rewrite Hr.
  assert (∀ kw : doc,
    kw !! "id" = Some (VStr (py_str rt oid)) →
    kw !! "title" = Some (VStr (ps_title p)) →
    kw !! "description" = Some (value_of_option VStr (ps_description p)) →
    kw !! "price" = Some (VFloat (ps_price p)) →
    kw !! "category" = Some (VStr (ps_category p)) →
    kw !! "in_stock" = Some (VBool (ps_in_stock p)) →
    kw !! "image" = Some (value_of_option VStr (ps_image p)) →
    kw !! "rating" = Some (value_of_option VFloat (ps_rating p)) →
    ProductOut_new rt kw = Ok (ProductOut_of_schema (py_str rt oid) p)) as Hnew.
  { intros kw K1 K2 K3 K4 K5 K6 K7 K8. unfold ProductOut_new.
    rewrite K1, K2, K3, K4, K5, K6, K7, K8.
    repeat (rewrite ?required_str, ?required_float, ?required_bool,
              ?optional_str, ?optional_float by done;
            cbn beta iota delta [mbind result_bind]).
    done. }
  assert (m !! "id" = Some (VStr (py_str rt oid)) ∧
          m !! "title" = Some (VStr (ps_title p)) ∧
          m !! "description" = Some (value_of_option VStr (ps_description p)) ∧
          m !! "price" = Some (VFloat (ps_price p)) ∧
          m !! "category" = Some (VStr (ps_category p)) ∧
          m !! "in_stock" = Some (VBool (ps_in_stock p)) ∧
          m !! "image" = Some (value_of_option VStr (ps_image p)))
    as (H1 & H2 & H3 & H4 & H5 & H6 & H7).
  { subst m. unfold ProductSchema_dump. repeat split; by simplify_map_eq. }
  clearbody m.
  destruct (ps_rating p) as [ra|] eqn:Hra; cbn.
  - apply Hnew; rewrite ?lookup_insert_eq, ?lookup_insert_ne by done; done.
  - by apply Hnew.
Qed.

Lemma ProductSchema_listable (rt : Runtime) (oid : value) (p : ProductSchema) :
  validators_accept rt →
  listable rt (<["_id" := oid]> (ProductSchema_dump p)).
Proof. intros Hacc. eexists. by apply ProductSchema_listed. Qed.

Lemma after_seeding_listable (rt : Runtime) (st : Store) :
  validators_accept rt →
  Forall (listable rt) (collection st "product") →
  Forall (listable rt) (collection (after_seeding rt st) "product").
Proof.
  intros Hacc Hst. unfold after_seeding.
  destruct (count_documents st "product" =? 0); [|done].
  rewrite seed_products. apply Forall_app. split; [done|].
  apply Forall_lookup. intros k d Hk. rewrite list_lookup_imap in Hk.
  destruct (SEED_PRODUCTS !! k) as [p|]; [|done]. injection Hk as <-.
  by apply ProductSchema_listable.
Qed.

Lemma example_runtime_accepts (algo : summation) :
  validators_accept (example_runtime algo).
Proof. by split. Qed.

(** C6. For a limit from 1 to 100, a list that [list_products] returns has
    at most [limit] products.  When every stored product can be listed, it
    does return a list, of [limit] products or of all of them if they are
    fewer; with a limit of 2 on a store of at least two products, that is
    exactly two. *)
Theorem list_products_at_most_limit (rt : Runtime) (st : Store) (limit : Z) :
  1 ≤ limit ≤ 100 →
  (∀ l, (list_products rt (Some st) limit).1 = Ok l →
        Z.of_nat (length l) ≤ limit) ∧
  (validators_accept rt → Forall (listable rt) (collection st "product") →
   ∃ l, (list_products rt (Some st) limit).1 = Ok l ∧
        Z.of_nat (length l)
        = Z.min limit (count_documents (after_seeding rt st) "product")) ∧
  (limit = 2 → 2 ≤ count_documents st "product" →
   Forall (listable rt) (collection st "product") →
   ∃ l, (list_products rt (Some st) limit).1 = Ok l ∧ length l = 2%nat).
Proof.
  intros Hlim. rewrite list_products_configured. cbn [fst].
  assert (∀ st1, Forall (listable rt) (collection st1 "product") →
            ∃ l, mapM (λ d, kw ← serialize_doc rt d ; ProductOut_new rt kw)
                   (get_documents "product" limit st1) = Ok l ∧
                 Z.of_nat (length l)
                 = Z.min limit (count_documents st1 "product")) as Hlist.
  { intros st1 Hall.
    destruct (mapM_Forall (λ d, kw ← serialize_doc rt d ; ProductOut_new rt kw)
                (get_documents "product" limit st1)) as [l Hl].
    { by apply Forall_take. }
    exists l. split; [done|].
    rewrite (mapM_length _ _ _ Hl). apply get_documents_length. lia. }
  split; [|split].
  - intros l Hl. rewrite (mapM_length _ _ _ Hl), get_documents_length; lia.
  - intros Hacc Hall. by apply Hlist, after_seeding_listable.
  - intros -> Hcount Hall.
    assert (after_seeding rt st = st) as ->.
    { unfold after_seeding.
      destruct (count_documents st "product" =? 0) eqn:E; [lia|done]. }
    destruct (Hlist st Hall) as (l & Hl & Hlen). exists l. split; [done|]. lia.
Qed.

Lemma list_products_at_most_limit_witness :
  ∃ l, (list_products (example_runtime LeftToRight) (Some empty_store) 2).1
       = Ok l ∧
       Z.of_nat (length l) = 2.
Proof.
  destruct (list_products_at_most_limit (example_runtime LeftToRight)
              empty_store 2 ltac:(lia)) as (_ & Hall & _).
  destruct (Hall (example_runtime_accepts LeftToRight) (List.Forall_nil _))
    as (l & Hl & Hlen).
  exists l. split; [exact Hl|]. rewrite Hlen. by_evaluation.
Defined.

(** ** Normalisation *)



(** ** Order of the items *)

Section Binary64.

Lemma SF64add_comm (x y : spec_float) : SF64add x y = SF64add y x.
Proof.
  unfold SF64add, SFadd.
  destruct x as [sx|sx| |sx mx ex], y as [sy|sy| |sy my ey]; try reflexivity.
  - by destruct sx, sy.
  - by destruct sx, sy.
  - cbn zeta. rewrite (Z.min_comm ey ex). f_equal. apply Z.add_comm.
Qed.

Lemma float_add_comm (x y : float) : (x + y = y + x)%float.
Proof. apply Prim2SF_inj. rewrite !add_spec. apply SF64add_comm. Qed.

Lemma Prim2SF_0 : Prim2SF 0 = sf_zero.
Proof. reflexivity. Qed.

Lemma neumaier2_spec (a b : float) :
  Prim2SF (sum_neumaier (0 + a) 0 [b]) = sf_neumaier2 (Prim2SF a) (Prim2SF b).
Proof.
  cbn [sum_neumaier]. unfold sf_neumaier2, is_finite, is_nan, is_infinity.
  rewrite !FloatAxioms.eqb_spec, FloatAxioms.leb_spec, !abs_spec, !add_spec, Prim2SF_0.
  change (Prim2SF infinity) with (S754_infinity false). unfold sf_is_finite.
  destruct (SFleb _ _); rewrite !add_spec, !sub_spec, !add_spec, Prim2SF_0;
    match goal with
    | |- Prim2SF (if ?c then _ else _) = _ =>
        destruct c; by rewrite ?add_spec, ?sub_spec, ?add_spec, ?Prim2SF_0
    end.
Qed.

Lemma SF64add_0_finite (s : bool) (m : positive) (e : Z) :
  SF64add sf_zero (S754_finite s m e) = S754_finite s m e.
Proof. reflexivity. Qed.

Lemma SF64sub_diag_finite (s : bool) (m : positive) (e : Z) :
  SF64sub (S754_finite s m e) (S754_finite s m e) = sf_zero.
Proof. unfold SF64sub, SFsub. cbn zeta. by rewrite Z.sub_diag. Qed.

Lemma SF64add_opp_finite (s : bool) (m : positive) (e : Z) :
  SF64add (S754_finite s m e) (S754_finite (negb s) m e) = sf_zero.
Proof.
  unfold SF64add, SFadd. cbn zeta.
  set (x := Z.pos _).
  replace (cond_Zopp s x + cond_Zopp (negb s) x) with 0
    by (destruct s; cbn; lia).
  reflexivity.
Qed.

Lemma SFleb_abs_total (m1 m2 : positive) (e1 e2 : Z) :
  SFleb (S754_finite false m1 e1) (S754_finite false m2 e2) = false →
  SFleb (S754_finite false m2 e2) (S754_finite false m1 e1) = true.
Proof.
  unfold SFleb, SFcompare.
  change (PosDef.Pos.compare_cont Eq m1 m2) with (m1 ?= m2)%positive.
  change (PosDef.Pos.compare_cont Eq m2 m1) with (m2 ?= m1)%positive.
  rewrite (Z.compare_antisym e1 e2), (Pos.compare_antisym m1 m2).
  destruct (e1 ?= e2); cbn; try done.
  by destruct (m1 ?= m2)%positive.
Qed.

Lemma SFleb_abs_antisym (m1 m2 : positive) (e1 e2 : Z) :
  SFleb (S754_finite false m1 e1) (S754_finite false m2 e2) = true →
  SFleb (S754_finite false m2 e2) (S754_finite false m1 e1) = true →
  m1 = m2 ∧ e1 = e2.
Proof.
  unfold SFleb, SFcompare.
  change (PosDef.Pos.compare_cont Eq m1 m2) with (m1 ?= m2)%positive.
  change (PosDef.Pos.compare_cont Eq m2 m1) with (m2 ?= m1)%positive.
  rewrite (Z.compare_antisym e1 e2), (Pos.compare_antisym m1 m2).
  destruct (e1 ?= e2) eqn:He; cbn; try done.
  destruct (m1 ?= m2)%positive eqn:Hm; cbn; try done.
  intros _ _. split; [by apply Pos.compare_eq | by apply Z.compare_eq].
Qed.

Lemma sf_neumaier2_comm_finite (sa sb : bool) (ma mb : positive) (ea eb : Z) :
  sf_neumaier2 (S754_finite sa ma ea) (S754_finite sb mb eb)
  = sf_neumaier2 (S754_finite sb mb eb) (S754_finite sa ma ea).
Proof.
  unfold sf_neumaier2. rewrite !SF64add_0_finite. cbn [SFabs].
  rewrite (SF64add_comm (S754_finite sb mb eb) (S754_finite sa ma ea)).
  set (t := SF64add (S754_finite sa ma ea) (S754_finite sb mb eb)).
  destruct (SFleb (S754_finite false mb eb) (S754_finite false ma ea)) eqn:Hba,
           (SFleb (S754_finite false ma ea) (S754_finite false mb eb)) eqn:Hab;
    try reflexivity.
  - destruct (SFleb_abs_antisym _ _ _ _ Hab Hba) as [-> ->].
    destruct sa, sb; try reflexivity; subst t.
    + rewrite (SF64add_opp_finite true). cbn [SF64sub SFsub].
      by rewrite (SF64add_comm (S754_finite true mb eb)).
    + rewrite (SF64add_opp_finite false). cbn [SF64sub SFsub].
      by rewrite (SF64add_comm (S754_finite true mb eb)).
  - by rewrite (SFleb_abs_total _ _ _ _ Hba) in Hab.
Qed.

Lemma sf_neumaier2_zero_finite (sa sb : bool) (mb : positive) (eb : Z) :
  sf_neumaier2 (S754_zero sa) (S754_finite sb mb eb) = S754_finite sb mb eb ∧
  sf_neumaier2 (S754_finite sb mb eb) (S754_zero sa) = S754_finite sb mb eb.
Proof.
  unfold sf_neumaier2.
  replace (SF64add sf_zero (S754_zero sa)) with sf_zero by (by destruct sa).
  rewrite !SF64add_0_finite.
  change (SF64add (S754_finite sb mb eb) (S754_zero sa))
    with (S754_finite sb mb eb).
  rewrite !SF64sub_diag_finite. by destruct sa.
Qed.

Lemma sf_neumaier2_comm (a b : spec_float) :
  sf_neumaier2 a b = sf_neumaier2 b a.
Proof.
  destruct a as [sa|sa| |sa ma ea], b as [sb|sb| |sb mb eb];
    try apply sf_neumaier2_comm_finite;
    try (by destruct sa, sb); try (by destruct sa); try (by destruct sb);
    try reflexivity.
  - destruct (sf_neumaier2_zero_finite sa sb mb eb) as [-> ->]. done.
  - destruct (sf_neumaier2_zero_finite sb sa ma ea) as [-> ->]. done.
Qed.

Lemma sum_neumaier_pair (a b : float) :
  sum_neumaier (0 + a) 0 [b] = sum_neumaier (0 + b) 0 [a].
Proof.
  apply Prim2SF_inj. rewrite !neumaier2_spec. apply sf_neumaier2_comm.
Qed.

Lemma SF64add_0_comm (a b : spec_float) :
  SF64add (SF64add sf_zero a) b = SF64add (SF64add sf_zero b) a.
Proof.
  destruct a as [sa|sa| |sa ma ea], b as [sb|sb| |sb mb eb];
    try (by destruct sa, sb); try (by destruct sa); try (by destruct sb);
    try reflexivity.
  rewrite !SF64add_0_finite. apply SF64add_comm.
Qed.

Lemma sum_left_pair (a b : float) :
  sum_left (0 + a) [b] = sum_left (0 + b) [a].
Proof.
  cbn. apply Prim2SF_inj. rewrite !add_spec, Prim2SF_0. apply SF64add_0_comm.
Qed.

Lemma sum_pair (algo : summation) (a b : float) :
  PyNum.sum algo [a; b] = PyNum.sum algo [b; a].
Proof.
  unfold PyNum.sum. f_equal.
  destruct algo; [apply sum_left_pair | apply sum_neumaier_pair].
Qed.

End Binary64.

Lemma mul_float_int_raises (x : float) (n : Z) (e : exn) :
  mul_float_int x n = Raise e → e = OverflowError.
Proof.
  unfold mul_float_int, float_of_int.
  destruct (binary_normalize prec emax n 0 false); cbn; congruence.
Qed.

Lemma subtotal_of_pair (rt : Runtime) (a b : OrderItem) :
  subtotal_of rt [a; b] = subtotal_of rt [b; a].
Proof.
  unfold subtotal_of, line_amounts. cbn [mapM].
  destruct (mul_float_int (item_price a) (item_quantity a)) as [x|ea] eqn:Ha,
           (mul_float_int (item_price b) (item_quantity b)) as [y|eb] eqn:Hb;
    cbn -[PyNum.sum]; try reflexivity.
  - by rewrite sum_pair.
  - apply mul_float_int_raises in Ha, Hb. by subst.
Qed.

(** C5, as stated, fails: three items priced 31.999999999999996, 192 and
    504403158265495552, each with quantity 1, have the subtotal
    504403158265495808 in that order and 504403158265495744 with the largest
    first, under either summation algorithm; the stored subtotals, rounded
    to two decimals, differ likewise. *)
Lemma subtotal_depends_on_order :
  items_a ≡ₚ items_b ∧
  (subtotal_of (example_runtime LeftToRight) items_a
     = Ok (PyFloat 504403158265495808) ∧
   subtotal_of (example_runtime LeftToRight) items_b
     = Ok (PyFloat 504403158265495744)) ∧
  (subtotal_of (example_runtime Compensated) items_a
     = Ok (PyFloat 504403158265495808) ∧
   subtotal_of (example_runtime Compensated) items_b
     = Ok (PyFloat 504403158265495744)) ∧
  504403158265495808%float ≠ 504403158265495744%float ∧
  float_round2 504403158265495808 ≠ float_round2 504403158265495744.
Proof.
  split.
  { unfold items_a, items_b.
    symmetry. apply (Permutation_cons_append [_; _]). }
  split; [split; by_evaluation|]. split; [split; by_evaluation|].
  split; float_neq.
Qed.

(** C5, amended.  An order of at most two items has the same subtotal in
    whatever order its items are given, under either summation algorithm,
    including when the subtotal cannot be computed because a quantity is too
    large for a float. *)
Theorem subtotal_of_two_items (rt : Runtime) (its its' : list OrderItem) :
  (length its ≤ 2)%nat →
  its ≡ₚ its' →
  subtotal_of rt its = subtotal_of rt its'.
Proof.
  intros Hlen Hperm.
  destruct its as [|a [|b [|c its]]]; cbn in Hlen; [| | |lia].
  - by apply Permutation_nil_l in Hperm as ->.
  - by apply Permutation_singleton_l in Hperm as ->.
  - apply Permutation_length_2_inv in Hperm as [-> | ->]; [done|].
    apply subtotal_of_pair.
Qed.

Lemma subtotal_of_two_items_witness :
  subtotal_of (example_runtime Compensated) items_c
  = subtotal_of (example_runtime Compensated) (reverse items_c).
Proof.
  apply subtotal_of_two_items; [cbn; lia | apply Permutation_swap].
Defined.

(** * Further properties of the handlers *)

(** ** [serialize_doc] *)

(** Normalising twice is normalising once: a normalised document has no
    ["_id"] left to rename, and its rating is already a float. *)
Theorem serialize_doc_idempotent (rt : Runtime) (d kw : doc) :
  serialize_doc rt d = Ok kw → serialize_doc rt kw = Ok kw.
Proof.
  intros Hd.
  destruct (serialize_doc_spec rt d kw Hd) as (Hid & _ & Hr & Hnone & Hnull).
  unfold serialize_doc. rewrite Hid.
  destruct (d !! "rating") as [r|] eqn:Hrating.
  - assert (r = VNone ∨ r ≠ VNone) as [-> | Hne]
      by (destruct r; (by left) || (by right)).
    + by rewrite Hnull.
    + destruct (Hr r eq_refl Hne) as (f & _ & Hkw). rewrite Hkw. cbn.
      by rewrite insert_id.
  - by rewrite Hnone.
Qed.

Lemma serialize_doc_idempotent_witness :
  serialize_doc (example_runtime LeftToRight) rated_doc = Ok rated_doc_normal ∧
  serialize_doc (example_runtime LeftToRight) rated_doc_normal
  = Ok rated_doc_normal.
Proof.
  assert (serialize_doc (example_runtime LeftToRight) rated_doc
          = Ok rated_doc_normal) as H by by_evaluation.
  split; [exact H|]. exact (serialize_doc_idempotent _ _ _ H).
Defined.

Lemma serialize_doc_other_keys (rt : Runtime) (d kw : doc) :
  serialize_doc rt d = Ok kw →
  (∀ k, k ≠ "_id" → k ≠ "id" → k ≠ "rating" → kw !! k = d !! k) ∧
  (d !! "_id" = None → kw !! "id" = d !! "id").
Proof.
  unfold serialize_doc.
  set (d1 := match d !! "_id" with
             | Some oid => <["id" := VStr (py_str rt oid)]> (delete "_id" d)
             | None => d
             end).
  assert (∀ k, k ≠ "_id" → k ≠ "id" → d1 !! k = d !! k) as Hd1.
  { intros k H1 H2. subst d1. destruct (d !! "_id"); [|done].
    by rewrite lookup_insert_ne, lookup_delete_ne. }
  assert (d !! "_id" = None → d1 = d) as Hd1'.
  { intros E. subst d1. by rewrite E. }
  clearbody d1. intros Hkw.
  assert (∀ k, k ≠ "rating" → kw !! k = d1 !! k) as Hk.
  { intros k Hne. revert Hkw.
    destruct (d1 !! "rating") as [r|]; [|by intros [= <-]].
    assert ((f ← py_float rt r ; Ok (<["rating" := VFloat f]> d1)) = Ok kw →
            kw !! k = d1 !! k) as Hgen.
    { destruct (py_float rt r) as [f|e]; cbn; [|done].
      intros [= <-]. by rewrite lookup_insert_ne. }
    destruct r; try exact Hgen. by intros [= <-]. }
  split.
  - intros k H1 H2 H3. by rewrite Hk, Hd1.
  - intros E. rewrite Hk by done. by rewrite Hd1'.
Qed.

(** Normalising touches three keys only: every key other than ["_id"],
    ["id"] and ["rating"] keeps its value or its absence, and without an
    ["_id"] the ["id"] field is left as it is. *)
Theorem serialize_doc_frame (rt : Runtime) (d kw : doc) :
  serialize_doc rt d = Ok kw →
  (∀ k, k ≠ "_id" → k ≠ "id" → k ≠ "rating" → kw !! k = d !! k) ∧
  (d !! "_id" = None → kw !! "id" = d !! "id").
Proof. apply serialize_doc_other_keys. Qed.

Lemma serialize_doc_frame_witness :
  rated_doc_normal !! "title" = rated_doc !! "title".
Proof.
  assert (serialize_doc (example_runtime LeftToRight) rated_doc
          = Ok rated_doc_normal) as H by by_evaluation.
  destruct (serialize_doc_frame _ _ _ H) as [Hk _].
  by apply Hk.
Defined.


(** ** Shipping and the writes of [create_order] *)

Lemma SFcompare_refl (x : spec_float) :
  x ≠ S754_nan → SFcompare x x = Some Eq.
Proof.
  destruct x as [s|s| |s m e]; cbn; try done.
  - by destruct s.
  - intros _. rewrite Z.compare_refl.
    change (PosDef.Pos.compare_cont Eq m m) with (m ?= m)%positive.
    rewrite Pos.compare_refl. by destruct s.
Qed.

Lemma positive_is_number (x : float) :
  (0 <? x)%float = true → (0 <=? x)%float = true ∧ is_nan x = false.
Proof.
  unfold is_nan.
  rewrite FloatAxioms.ltb_spec, FloatAxioms.leb_spec, FloatAxioms.eqb_spec.
  change (Prim2SF 0) with (S754_zero false).
  unfold SFltb, SFleb, SFeqb.
  destruct (Prim2SF x) as [s|s| |s m e] eqn:Hx; try done.
  - destruct s; [done|]. by intros _.
  - destruct s; [done|]. intros _. split; [done|].
    by rewrite SFcompare_refl.
Qed.


Lemma line_amounts_raises (its : list OrderItem) (e : exn) :
  line_amounts its = Raise e → e = OverflowError.
Proof.
  unfold line_amounts. induction its as [|it its IH]; cbn; [done|].
  destruct (mul_float_int (item_price it) (item_quantity it)) as [x|e'] eqn:Hx;
    cbn.
  - destruct (mapM _ its) as [xs|e']; cbn; [done|].
    intros [= <-]. by apply IH.
  - intros [= <-]. by apply mul_float_int_raises in Hx.
Qed.

Lemma mul_float_int_ok (p : float) (q : Z) :
  (∃ x, mul_float_int p q = Ok x) ↔ (∃ y, float_of_int q = Ok y).
Proof.
  unfold mul_float_int.
  destruct (float_of_int q) as [y|e]; cbn -[float_of_int].
  - split; by eexists.
  - split; by intros [? ?].
Qed.

Lemma line_amounts_ok (its : list OrderItem) :
  (∃ amounts, line_amounts its = Ok amounts) ↔
  Forall (λ it, ∃ y, float_of_int (item_quantity it) = Ok y) its.
Proof.
  unfold line_amounts.
  induction its as [|it its IH]; cbn [mapM].
  - split; [constructor | by eexists].
  - rewrite Forall_cons, <- IH, <- (mul_float_int_ok (item_price it)).
    destruct (mul_float_int (item_price it) (item_quantity it)) as [x|e],
             (mapM _ its) as [xs|e']; cbn.
    + split; [intros _; split; by eexists | by eexists].
    + split; [by intros [? ?] | by intros [_ [? ?]]].
    + split; [by intros [? ?] | by intros [[? ?] _]].
    + split; [by intros [? ?] | by intros [[? ?] _]].
Qed.


Lemma create_order_succeeds (rt : Runtime) (st : Store) (order : Order) :
  (∃ out st', create_order rt (Some st) order = (Ok out, Some st')) ↔
  Forall (λ it, ∃ y, float_of_int (item_quantity it) = Ok y)
    (order_items order).
Proof.
  rewrite <- line_amounts_ok.
  pose proof (create_order_configured rt st order) as Hco.
  unfold subtotal_of in Hco.
  destruct (line_amounts (order_items order)) as [amounts|e];
    cbn -[create_order add_float PyNum.sum] in Hco.
  - destruct Hco as (raw & _ & ->). split; intros _; [by eexists|].
    by do 2 eexists.
  - rewrite Hco. split; [by intros (? & ? & ?)|by intros [? ?]].
Qed.




(** There is no deduplication: two submissions of the same order in
    sequence, when the first succeeds, both succeed with the same total and
    append two documents, under two different identifiers of the store. *)
Theorem create_order_twice (rt : Runtime) (st : Store) (order : Order)
    (out : OrderOut) (db1 : option Store) :
  create_order rt (Some st) order = (Ok out, db1) →
  ∃ out' st2 d1 d2,
    create_order rt db1 order = (Ok out', Some st2) ∧
    total out' = total out ∧
    collection st2 "order" = (collection st "order" ++ [d1; d2])%list ∧
    d1 !! "_id" = Some (VObjectId (next_id st)) ∧
    d2 !! "_id" = Some (VObjectId (N.succ (next_id st))) ∧
    d1 !! "_id" ≠ d2 !! "_id" ∧
    delete "_id" d1 = delete "_id" d2.
Proof.
  intros H1.
  pose proof (create_order_configured rt st order) as Hco.
  destruct (subtotal_of rt (order_items order)) as [sub|e] eqn:Hsub;
    [|by rewrite Hco in H1].
  destruct Hco as (raw & Hraw & Hco). rewrite Hco in H1.
  injection H1 as <- <-.
  set (st1 := (insert_one "order"
                 (order_doc order sub
                    (effective_shipping (order_shipping order))
                    (float_round2 raw)) st).2).
  pose proof (create_order_configured rt st1 order) as Hco2.
  rewrite Hsub in Hco2. destruct Hco2 as (raw' & Hraw' & Hco2).
  rewrite Hraw in Hraw'. injection Hraw' as <-.
  do 4 eexists. split; [exact Hco2|]. split; [done|].
  rewrite collection_insert_one. subst st1.
  rewrite collection_insert_one, <- app_assoc. split; [done|].
  rewrite !stored_id. split; [done|]. split; [done|].
  split; [intros [= H]; lia|].
  by rewrite !delete_insert_eq.
Qed.

Lemma create_order_twice_witness :
  ∃ out' st2,
    create_order (example_runtime LeftToRight)
      (create_order (example_runtime LeftToRight) (Some empty_store)
         small_order).2 small_order = (Ok out', Some st2) ∧
    length (collection st2 "order") = 2%nat.
Proof.
  destruct (create_order (example_runtime LeftToRight) (Some empty_store)
              small_order) as [r db1] eqn:E.
  assert (∃ out, r = Ok out) as [out ->].
  { pose proof (create_order_configured (example_runtime LeftToRight)
                  empty_store small_order) as (raw & _ & H).
    rewrite H in E. injection E as <- _. by eexists. }
  destruct (create_order_twice _ _ _ _ _ E)
    as (out' & st2 & d1 & d2 & H & _ & Hc & _).
  exists out', st2. split; [exact H|]. by rewrite Hc.
Defined.

(** ** Quantities that fit in 64 bits *)

Section IntToFloat.

Local Abbreviation fexp := (SpecFloat.fexp prec emax).

Lemma fexp_eq (e : Z) : fexp e = Z.max (e - 53) (-1074).
Proof. reflexivity. Qed.

Lemma digits2_pos_bound (p : positive) (k : Z) :
  0 ≤ k → Z.pos p < 2 ^ k → Z.pos (digits2_pos p) ≤ k.
Proof.
  revert k. induction p as [p IH|p IH|]; intros k Hk Hp; cbn [digits2_pos].
  - assert (k = Z.succ (k - 1)) as Hk' by lia. assert (0 ≤ k - 1).
    { destruct (decide (k = 0)) as [->|]; [cbn in Hp; lia|lia]. }
    rewrite Hk', Z.pow_succ_r in Hp by done.
    specialize (IH (k - 1)). lia.
  - assert (k = Z.succ (k - 1)) as Hk' by lia. assert (0 ≤ k - 1).
    { destruct (decide (k = 0)) as [->|]; [cbn in Hp; lia|lia]. }
    rewrite Hk', Z.pow_succ_r in Hp by done.
    specialize (IH (k - 1)). lia.
  - destruct (decide (k = 0)) as [->|]; [cbn in Hp; lia|lia].
Qed.

Lemma Zdigits2_bound (m k : Z) :
  0 ≤ k → 0 ≤ m < 2 ^ k → Zdigits2 m ≤ k.
Proof.
  intros Hk [Hm Hmk]. destruct m as [|p|p]; cbn; [lia| |lia].
  by apply digits2_pos_bound.
Qed.

Lemma iter_xO (m d : positive) :
  Z.pos (Pos.iter xO m d) = Z.pos m * 2 ^ Z.pos d.
Proof.
  induction d as [|d IH] using Pos.peano_ind.
  - cbn. lia.
  - rewrite Pos.iter_succ, Pos2Z.inj_succ, Z.pow_succ_r by lia.
    rewrite Pos2Z.inj_xO, IH. lia.
Qed.

Lemma shr_1_bound (mrs : shr_record) (b : Z) :
  0 ≤ shr_m mrs ≤ b → 0 ≤ shr_m (shr_1 mrs) ≤ b.
Proof.
  destruct mrs as [m r s]. cbn [shr_m]. intros Hm.
  destruct m as [|[p|p|]|[p|p|]]; cbn; lia.
Qed.

Lemma iter_shr_1_bound (p : positive) (mrs : shr_record) (b : Z) :
  0 ≤ shr_m mrs ≤ b → 0 ≤ shr_m (SpecFloat.iter_pos shr_1 p mrs) ≤ b.
Proof.
  revert mrs. induction p as [p IH|p IH|]; intros mrs Hm; cbn [SpecFloat.iter_pos].
  - by apply IH, IH, shr_1_bound.
  - by apply IH, IH.
  - by apply shr_1_bound.
Qed.

Lemma shr_fexp_exponent (m e : Z) (l : location) :
  (shr_fexp prec emax m e l).2 = Z.max e (fexp (Zdigits2 m + e)).
Proof.
  unfold shr_fexp, shr.
  destruct (fexp (Zdigits2 m + e) - e) as [|p|p] eqn:Hn; cbn [snd]; lia.
Qed.

Lemma shr_fexp_mantissa (m e : Z) (l : location) :
  0 ≤ m → 0 ≤ shr_m (shr_fexp prec emax m e l).1 ≤ m.
Proof.
  intros Hm. unfold shr_fexp, shr.
  assert (0 ≤ shr_m (shr_record_of_loc m l) ≤ m) as H0
    by (destruct l as [|[]]; cbn; lia).
  destruct (fexp (Zdigits2 m + e) - e) as [|p|p]; cbn [fst]; [done| |done].
  by apply iter_shr_1_bound.
Qed.

Lemma round_nearest_even_bound (m : Z) (l : location) :
  m ≤ round_nearest_even m l ≤ m + 1.
Proof.
  destruct l as [|[]]; cbn [round_nearest_even]; try lia.
  destruct (Z.even m); lia.
Qed.

(** Rounding a mantissa below [2 ^ k] at an exponent from [-52] to [0], for
    [k] up to 400, does not overflow. *)
Lemma binary_round_aux_finite (s : bool) (m : positive) (e k : Z) :
  0 ≤ k ≤ 400 → -52 ≤ e ≤ 0 → Z.pos m < 2 ^ k →
  ∀ s', binary_round_aux prec emax s (Z.pos m) e loc_Exact ≠ S754_infinity s'.
Proof.
  intros Hk He Hm s'. unfold binary_round_aux.
  pose proof (shr_fexp_exponent (Z.pos m) e loc_Exact) as He1.
  pose proof (shr_fexp_mantissa (Z.pos m) e loc_Exact ltac:(lia)) as Hm1.
  destruct (shr_fexp prec emax (Z.pos m) e loc_Exact) as [mrs1 e1].
  cbn [fst snd] in He1, Hm1.
  set (m2 := round_nearest_even (shr_m mrs1) (loc_of_shr_record mrs1)).
  pose proof (round_nearest_even_bound (shr_m mrs1) (loc_of_shr_record mrs1))
    as Hm2. fold m2 in Hm2.
  pose proof (shr_fexp_exponent m2 e1 loc_Exact) as He2.
  destruct (shr_fexp prec emax m2 e1 loc_Exact) as [mrs2 e2].
  cbn [snd] in He2.
  assert (Zdigits2 (Z.pos m) ≤ k) as Hd1 by (apply Zdigits2_bound; lia).
  assert (Zdigits2 m2 ≤ k + 1) as Hd2.
  { apply Zdigits2_bound; [lia|].
    replace (k + 1) with (Z.succ k) by lia. rewrite Z.pow_succ_r by lia. lia. }
  rewrite fexp_eq in He1, He2.
  destruct (shr_m mrs2) as [|p|p]; [done| |done].
  assert (e2 ≤ emax - prec) as Hle by (change (emax - prec) with 971; lia).
  apply Z.leb_le in Hle. by rewrite Hle.
Qed.

Lemma binary_round_finite (s : bool) (m : positive) :
  Z.pos m < 2 ^ 64 →
  ∀ s', binary_round prec emax s m 0 ≠ S754_infinity s'.
Proof.
  intros Hm s'. unfold binary_round, shl_align.
  pose proof (digits2_pos_bound m 64 ltac:(lia) Hm) as Hd.
  rewrite Z.add_0_r, Z.sub_0_r, fexp_eq.
  destruct (Z.max (Z.pos (digits2_pos m) - 53) (-1074)) as [|d|d] eqn:Hfe.
  - apply (binary_round_aux_finite s m 0 64); lia.
  - apply (binary_round_aux_finite s m 0 64); lia.
  - assert (Z.pos d ≤ 52) as Hd52 by lia.
    apply (binary_round_aux_finite s _ _ 116); [lia|lia|].
    rewrite iter_xO.
    assert (2 ^ Z.pos d ≤ 2 ^ 52) by (apply Z.pow_le_mono_r; lia).
    change (2 ^ 116) with (2 ^ 64 * 2 ^ 52). nia.
Qed.

Lemma float_of_int_64 (z : Z) :
  - 2 ^ 64 < z < 2 ^ 64 → ∃ y, float_of_int z = Ok y.
Proof.
  intros Hz. unfold float_of_int.
  assert (∀ s', binary_normalize prec emax z 0 false ≠ S754_infinity s') as H.
  { destruct z as [|p|p]; cbn [binary_normalize]; [done| |];
      apply binary_round_finite; lia. }
  destruct (binary_normalize prec emax z 0 false) as [s|s| |s m e];
    try by eexists.
  by destruct (H s).
Qed.

End IntToFloat.



(** ** What [list_products] leaves alone, and what it lists *)

Lemma seeding_loop_frame (rt : Runtime) (ps : list ProductSchema) (st : Store)
    (name : string) :
  name ≠ "product" →
  collection
    (fold_left
       (λ st p, (create_document rt "product" (ProductSchema_dump p) st).2)
       ps st) name
  = collection st name.
Proof.
  intros Hne. revert st. induction ps as [|p ps IH]; intros st; [done|].
  cbn [fold_left]. rewrite IH, create_document_store.
  by apply collection_insert_one_ne.
Qed.

Lemma after_seeding_frame (rt : Runtime) (st : Store) (name : string) :
  name ≠ "product" →
  collection (after_seeding rt st) name = collection st name.
Proof.
  intros Hne. unfold after_seeding.
  destruct (count_documents st "product" =? 0); [|done].
  by apply seeding_loop_frame.
Qed.

Lemma after_seeding_next_id (rt : Runtime) (st : Store) :
  (next_id st ≤ next_id (after_seeding rt st))%N.
Proof.
  unfold after_seeding.
  destruct (count_documents st "product" =? 0); [|done].
  destruct (seeding_loop rt SEED_PRODUCTS st) as [_ Hn].
  unfold seed. cbn zeta in Hn. rewrite Hn. lia.
Qed.

(** [list_products] only ever appends products: the orders and every other
    collection are as they were, the products already stored are still
    there, first and unchanged, and none of this depends on whether the
    listing itself succeeds. *)
Theorem list_products_frame (rt : Runtime) (st : Store) (limit : Z) :
  ∃ st',
    (list_products rt (Some st) limit).2 = Some st' ∧
    (∀ name, name ≠ "product" → collection st' name = collection st name) ∧
    collection st "product" `prefix_of` collection st' "product" ∧
    (next_id st ≤ next_id st')%N.
Proof.
  exists (after_seeding rt st). rewrite list_products_configured.
  split; [done|]. split; [intros name; apply after_seeding_frame|].
  split; [|apply after_seeding_next_id].
  unfold after_seeding.
  destruct (count_documents st "product" =? 0); [|done].
  rewrite seed_products. by apply prefix_app_r.
Qed.

Lemma mapM_take {A B : Type} (f : A → result B) (l : list A) (l' : list B)
    (n : nat) :
  mapM f l = Ok l' → mapM f (take n l) = Ok (take n l').
Proof.
  revert l' n. induction l as [|a l IH]; intros l' n; cbn [mapM].
  - intros [= <-]. by destruct n.
  - destruct (f a) as [b|e] eqn:Hfa; cbn; [|done].
    destruct (mapM f l) as [bs|e] eqn:Hl; cbn; [|done].
    intros [= <-]. destruct n as [|n]; [done|].
    cbn [take mapM]. rewrite Hfa. cbn. by rewrite (IH bs n eq_refl).
Qed.



Lemma mapM_imap {A B : Type} (f : A → result B) (g : nat → A → B)
    (l : list A) (k : nat) :
  (∀ i a, l !! i = Some a → f a = Ok (g (k + i)%nat a)) →
  mapM f l = Ok (imap (λ i, g (k + i)%nat) l).
Proof.
  revert k. induction l as [|a l IH]; intros k Hf; [done|].
  cbn [mapM imap]. rewrite (Hf 0%nat a eq_refl). cbn.
  rewrite (IH (S k)).
  - cbn. rewrite Nat.add_0_r. do 2 f_equal.
    apply imap_ext. intros i b _. cbn. f_equal. lia.
  - intros i b Hi. rewrite (Hf (S i) b Hi). do 2 f_equal. lia.
Qed.

Lemma mapM_imap_list {A B C : Type} (f : B → result C) (h : nat → A → B)
    (g : nat → A → C) (l : list A) :
  (∀ i a, f (h i a) = Ok (g i a)) →
  mapM f (imap h l) = Ok (imap g l).
Proof.
  revert h g. induction l as [|a l IH]; intros h g Hf; [done|].
  cbn [imap mapM]. rewrite Hf. cbn. rewrite (IH (h ∘ S) (g ∘ S)); [done|].
  intros i b. apply Hf.
Qed.



Lemma mapM_ok_iff {A B : Type} (f : A → result B) (l : list A) :
  (∃ l', mapM f l = Ok l') ↔ Forall (λ a, ∃ b, f a = Ok b) l.
Proof.
  split; [|apply mapM_Forall].
  intros [l' Hl']. apply mapM_Forall2 in Hl'.
  induction Hl'; constructor; eauto.
Qed.

Lemma required_raises {A : Type} (v : value → option A) (o : option value)
    (e : exn) :
  required v o = Raise e → e = ValidationError.
Proof. unfold required. destruct (o ≫= v); cbn; congruence. Qed.

Lemma optional_raises {A : Type} (v : value → option A) (o : option value)
    (e : exn) :
  optional v o = Raise e → e = ValidationError.
Proof.
  unfold optional. destruct o as [x|]; [|done].
  destruct x; try done; destruct (v _); cbn; congruence.
Qed.

Lemma ProductOut_new_raises (rt : Runtime) (kw : doc) (e : exn) :
  ProductOut_new rt kw = Raise e → e = ValidationError.
Proof.
  unfold ProductOut_new.
  repeat match goal with
         | |- (?r ≫= _) = Raise _ → _ =>
             let H := fresh in
             destruct r eqn:H; cbn beta iota delta [mbind result_bind];
             [|intros [= <-];
               first [by eapply required_raises | by eapply optional_raises]]
         end.
  done.
Qed.

Lemma required_present {A : Type} (v : value → option A) (o : option value)
    (a : A) :
  required v o = Ok a → is_Some o.
Proof. unfold required. by destruct o. Qed.

Lemma ProductOut_new_requires (rt : Runtime) (kw : doc) (p : ProductOut) :
  ProductOut_new rt kw = Ok p →
  is_Some (kw !! "id") ∧ is_Some (kw !! "title") ∧ is_Some (kw !! "price") ∧
  is_Some (kw !! "category") ∧ is_Some (kw !! "in_stock").
Proof.
  unfold ProductOut_new. intros H.
  repeat match type of H with
         | (?r ≫= _) = Ok _ =>
             let E := fresh "E" in
             destruct r eqn:E; cbn beta iota delta [mbind result_bind] in H;
             [|discriminate H]
         end.
  repeat split; by eapply required_present.
Qed.


(** A stored document is listed only if it has a title, a price, a category
    and a stock flag, and an identifier under ["_id"] or under ["id"]:
    without one of them, building the [ProductOut] raises. *)
Theorem listable_requires (rt : Runtime) (d : doc) :
  listable rt d →
  (is_Some (d !! "_id") ∨ is_Some (d !! "id")) ∧
  is_Some (d !! "title") ∧ is_Some (d !! "price") ∧
  is_Some (d !! "category") ∧ is_Some (d !! "in_stock").
Proof.
  intros [p Hp].
  destruct (serialize_doc rt d) as [kw|e] eqn:Hkw; [|done]. cbn in Hp.
  destruct (ProductOut_new_requires rt kw p Hp) as (Hi & Ht & Hpr & Hc & Hs).
  destruct (serialize_doc_other_keys rt d kw Hkw) as [Hk Hid].
  rewrite <- (Hk "title"), <- (Hk "price"), <- (Hk "category"),
    <- (Hk "in_stock") by done.
  repeat split; try done.
  destruct (d !! "_id") as [oid|] eqn:Hoid; [left; by eexists|].
  right. by rewrite <- Hid.
Qed.

Lemma listable_requires_witness :
  is_Some (seeded_doc 0 0 smartwatch !! "title").
Proof.
  destruct (listable_requires (example_runtime LeftToRight)
              (seeded_doc 0 0 smartwatch)) as (_ & H & _);
    [|exact H].
  apply ProductSchema_listable, example_runtime_accepts.
Defined.

(** ** The shipping as submitted *)

Lemma order_doc_shipping (its : list OrderItem) (s : option float)
    (sub : pynum) (sh tot : float) :
  order_doc {| order_items := its; order_shipping := s |} sub sh tot
  = <["total" := VFloat tot]>
      (<["shipping" := VFloat (float_round2 sh)]>
        (<["subtotal" := value_of_num (round2 sub)]>
          (<["items" := VList (map OrderItem_dump its)]> ∅))).
Proof.
  unfold order_doc, Order_dump. cbn [order_items order_shipping].
  apply map_eq. intros k. rewrite !lookup_insert.
  repeat case_decide; done.
Qed.

(** The shipping as submitted counts only through the effective shipping:
    two orders with the same items whose shippings clamp to the same value
    get the same response and leave the same store.  In particular a
    negative shipping leaves no trace: the order is priced and stored as the
    same order without shipping. *)
Theorem create_order_shipping_clamped_away (rt : Runtime) (db : option Store)
    (its : list OrderItem) (s s' : option float) :
  (effective_shipping s = effective_shipping s' →
   create_order rt db {| order_items := its; order_shipping := s |}
   = create_order rt db {| order_items := its; order_shipping := s' |}) ∧
  (∀ x, (x <? 0)%float = true →
        create_order rt db {| order_items := its; order_shipping := Some x |}
        = create_order rt db {| order_items := its; order_shipping := None |}).
Proof.
  assert (∀ s s', effective_shipping s = effective_shipping s' →
            create_order rt db {| order_items := its; order_shipping := s |}
            = create_order rt db {| order_items := its; order_shipping := s' |})
    as Hgen.
  { clear s s'. intros s s' Heq. destruct db as [st|]; [|done].
    pose proof (create_order_configured rt st
                  {| order_items := its; order_shipping := s |}) as H1.
    pose proof (create_order_configured rt st
                  {| order_items := its; order_shipping := s' |}) as H2.
    cbn [order_items order_shipping] in H1, H2.
    destruct (subtotal_of rt its) as [sub|e]; [|by rewrite H1, H2].
    destruct H1 as (raw & Hraw & ->), H2 as (raw' & Hraw' & ->).
    rewrite Heq in Hraw. rewrite Hraw in Hraw'. injection Hraw' as <-.
    by rewrite !order_doc_shipping, Heq. }
  split; [apply Hgen|].
  intros x Hx. apply Hgen. cbn. by apply max0_negative.
Qed.

(** ** The first two items *)

Section FirstTwo.

Lemma compensation_spec (a b : float) :
  Prim2SF (compensation a b) = sf_compensation (Prim2SF a) (Prim2SF b).
Proof.
  unfold compensation, sf_compensation.
  rewrite FloatAxioms.leb_spec, !abs_spec, !add_spec, Prim2SF_0.
  destruct (SFleb _ _);
    by rewrite !add_spec, !sub_spec, !add_spec, Prim2SF_0.
Qed.

Lemma sf_compensation_comm_finite (sa sb : bool) (ma mb : positive)
    (ea eb : Z) :
  sf_compensation (S754_finite sa ma ea) (S754_finite sb mb eb)
  = sf_compensation (S754_finite sb mb eb) (S754_finite sa ma ea).
Proof.
  unfold sf_compensation. rewrite !SF64add_0_finite. cbn [SFabs].
  rewrite (SF64add_comm (S754_finite sb mb eb) (S754_finite sa ma ea)).
  set (t := SF64add (S754_finite sa ma ea) (S754_finite sb mb eb)).
  destruct (SFleb (S754_finite false mb eb) (S754_finite false ma ea)) eqn:Hba,
           (SFleb (S754_finite false ma ea) (S754_finite false mb eb)) eqn:Hab;
    try reflexivity.
  - destruct (SFleb_abs_antisym _ _ _ _ Hab Hba) as [-> ->].
    destruct sa, sb; try reflexivity; subst t.
    + rewrite (SF64add_opp_finite true). cbn [SF64sub SFsub].
      by rewrite (SF64add_comm (S754_finite true mb eb)).
    + rewrite (SF64add_opp_finite false). cbn [SF64sub SFsub].
      by rewrite (SF64add_comm (S754_finite true mb eb)).
  - by rewrite (SFleb_abs_total _ _ _ _ Hba) in Hab.
Qed.

Lemma sf_compensation_zero_finite (sa sb : bool) (mb : positive) (eb : Z) :
  sf_compensation (S754_zero sa) (S754_finite sb mb eb) = sf_zero ∧
  sf_compensation (S754_finite sb mb eb) (S754_zero sa) = sf_zero.
Proof.
  unfold sf_compensation.
  replace (SF64add sf_zero (S754_zero sa)) with sf_zero by (by destruct sa).
  rewrite !SF64add_0_finite.
  change (SF64add (S754_finite sb mb eb) (S754_zero sa))
    with (S754_finite sb mb eb).
  rewrite !SF64sub_diag_finite. by destruct sa.
Qed.

Lemma sf_compensation_comm (a b : spec_float) :
  sf_compensation a b = sf_compensation b a.
Proof.
  destruct a as [sa|sa| |sa ma ea], b as [sb|sb| |sb mb eb];
    try apply sf_compensation_comm_finite;
    try (by destruct sa, sb); try (by destruct sa); try (by destruct sb);
    try reflexivity.
  - by destruct (sf_compensation_zero_finite sa sb mb eb) as [-> ->].
  - by destruct (sf_compensation_zero_finite sb sa ma ea) as [-> ->].
Qed.

Lemma compensation_comm (a b : float) : compensation a b = compensation b a.
Proof.
  apply Prim2SF_inj. rewrite !compensation_spec. apply sf_compensation_comm.
Qed.

Lemma sum_swap (algo : summation) (a b : float) (xs : list float) :
  PyNum.sum algo (a :: b :: xs) = PyNum.sum algo (b :: a :: xs).
Proof.
  unfold PyNum.sum. f_equal. destruct algo.
  - cbn [sum_left]. f_equal. apply (sum_left_pair a b).
  - cbn [sum_neumaier]. cbn zeta.
    change (sum_neumaier (0 + a + b) (compensation a b) xs
            = sum_neumaier (0 + b + a) (compensation b a) xs).
    f_equal; [apply (sum_left_pair a b)|]. by rewrite compensation_comm.
Qed.

End FirstTwo.

(** Exchanging the first two items of an order, of any length, never
    changes the subtotal, under either summation algorithm, nor whether it
    can be computed. *)
Theorem subtotal_swap_first_two (rt : Runtime) (x y : OrderItem)
    (its : list OrderItem) :
  subtotal_of rt (x :: y :: its) = subtotal_of rt (y :: x :: its).
Proof.
  unfold subtotal_of, line_amounts. cbn [mapM].
  destruct (mul_float_int (item_price x) (item_quantity x)) as [a|ea] eqn:Ha,
           (mul_float_int (item_price y) (item_quantity y)) as [b|eb] eqn:Hb,
           (mapM (λ it, mul_float_int (item_price it) (item_quantity it)) its)
             as [xs|es];
    cbn -[PyNum.sum]; try reflexivity.
  - by rewrite sum_swap.
  - apply mul_float_int_raises in Ha, Hb. by subst.
  - apply mul_float_int_raises in Ha, Hb. by subst.
Qed.

(** ** [test_database] *)

Lemma py_prefix_len (n : nat) (s : string) : (py_len (py_prefix n s) ≤ n)%nat.
Proof.
  revert n. induction s as [|c s IH]; intros n; cbn; [lia|].
  destruct (is_continuation c) eqn:Hc; cbn; rewrite ?Hc.
  - apply IH.
  - destruct n as [|n]; cbn; rewrite ?Hc; [lia|].
    specialize (IH n). lia.
Qed.

Lemma py_prefix_all (n : nat) (s : string) :
  (py_len s ≤ n)%nat → py_prefix n s = s.
Proof.
  revert n. induction s as [|c s IH]; intros n; cbn; [done|].
  destruct (is_continuation c).
  - intros H. by rewrite IH.
  - destruct n as [|n]; [lia|]. intros H. rewrite IH; [done|lia].
Qed.

Lemma py_prefix_prefix (n : nat) (s : string) :
  ∃ rest, s = py_prefix n s ++ rest.
Proof.
  revert n. induction s as [|c s IH]; intros n; cbn; [by exists ""|].
  destruct (is_continuation c).
  - destruct (IH n) as [rest Hrest]. exists rest.
    change (String c s = String c (py_prefix n s ++ rest)). by f_equal.
  - destruct n as [|n]; [by eexists|].
    destruct (IH n) as [rest Hrest]. exists rest.
    change (String c s = String c (py_prefix n s ++ rest)). by f_equal.
Qed.

Lemma reported_collections_length (db : option Database) :
  (length (reported_collections db) ≤ 10)%nat.
Proof.
  destruct db as [[[[v|m]|] [names|m']]|]; cbn [reported_collections length];
    rewrite ?length_take; lia.
Qed.




